(** * COMPAS: the RPC proxy and the Blender network artist

    A shallow embedding of [src/compas/rpc/proxy.py] and of
    [src/compas_blender/artists/networkartist.py].

    Python objects are values of an inductive type; a method that mutates
    [self] or talks to the outside world is a function on an explicit
    machine state that returns an outcome (a result or a raised exception)
    together with the new state.  Everything the code obtains from outside
    (the XML-RPC server, the spawned process, the Blender drawing API, the
    accessors of base classes) is an environment the theorems quantify
    over.  The JSON text of the envelopes is written and read by a codec
    of its own, [Json]. *)

From Stdlib Require Import ZArith List String Ascii Bool Lia.
From Stdlib Require Import Decimal DecimalString DecimalZ.
From Stdlib Require DecimalPos DecimalN.
Import ListNotations.
Set Warnings "-register-all".
Local Open Scope list_scope.
Local Open Scope string_scope.

(* ================================================================== *)
(** ** Python values, exceptions and outcomes *)
(* ================================================================== *)

Module Py.

(** Dictionary keys: strings (JSON members, keyword arguments) and
    integers (node identifiers). *)
Inductive key : Type :=
| KStr (s : string)
| KInt (z : Z).

(** The built-in values the two modules exchange.  [list] and [tuple] are
    both ordered sequences and are both [VList]; numbers are Python [int]s
    (unbounded); a [dict] is an association list in insertion order. *)
Inductive value : Type :=
| VNone
| VBool (b : bool)
| VInt (z : Z)
| VStr (s : string)
| VList (l : list value)
| VDict (d : list (key * value)).

Definition key_eqb (a b : key) : bool :=
  match a, b with
  | KStr s, KStr t => String.eqb s t
  | KInt x, KInt y => Z.eqb x y
  | _, _ => false
  end.

(** [bool(v)]: what [if v:] and [not v] test. *)
Definition truthy (v : value) : bool :=
  match v with
  | VNone => false
  | VBool b => b
  | VInt z => negb (Z.eqb z 0)
  | VStr s => negb (String.eqb s "")
  | VList l => match l with [] => false | _ :: _ => true end
  | VDict d => match d with [] => false | _ :: _ => true end
  end.

(** [str(z)] for an [int]. *)
Definition str_of_Z (z : Z) : string := NilZero.string_of_int (Z.to_int z).

(** [str(k)] for a key. *)
Definition str_of_key (k : key) : string :=
  match k with
  | KStr s => s
  | KInt z => str_of_Z z
  end.

(** [d.get(k)]: the value stored under [k], if any. *)
Fixpoint dict_get {A : Type} (d : list (key * A)) (k : key) : option A :=
  match d with
  | [] => None
  | (k', v) :: d' => if key_eqb k' k then Some v else dict_get d' k
  end.

(** [d[k] = v]: an existing key keeps its position, a new one goes last. *)
Fixpoint dict_set {A : Type} (d : list (key * A)) (k : key) (v : A) : list (key * A) :=
  match d with
  | [] => [(k, v)]
  | (k', v') :: d' =>
      if key_eqb k' k then (k', v) :: d' else (k', v') :: dict_set d' k v
  end.

(** [{k: v for ...}] over a sequence of pairs, in order: a key met again
    keeps its place and takes the later value. *)
Definition dict_of_pairs {A : Type} (l : list (key * A)) : list (key * A) :=
  fold_left (fun d kv => dict_set d (fst kv) (snd kv)) l [].

(** Iterating a dict yields its keys in insertion order. *)
Definition dict_keys {A : Type} (d : list (key * A)) : list key := map fst d.

Inductive exn : Type :=
| RPCServerError (args : list value)
| NotImplementedError
| KeyError (k : key)
| TypeError (msg : string)
| AttributeError (msg : string)
| Foreign (cls : string) (args : list value).
  (* [Foreign]: whatever the transport, the operating system or a library
     raises (ConnectionRefusedError, xmlrpc Fault, OSError, ...). *)

Inductive outcome (A : Type) : Type :=
| Ret (a : A)
| Raise (e : exn).

Arguments Ret {A} a.
Arguments Raise {A} e.

(** [v[k]] for a string subscript. *)
Definition subscript (v : value) (k : string) : outcome value :=
  match v with
  | VDict d =>
      match dict_get d (KStr k) with
      | Some x => Ret x
      | None => Raise (KeyError (KStr k))
      end
  | VStr _ => Raise (TypeError "string indices must be integers")
  | VList _ => Raise (TypeError "list indices must be integers or slices, not str")
  | _ => Raise (TypeError "object is not subscriptable")
  end.

(** A method body over a state [S]: state in, outcome and state out. *)
Definition M (S A : Type) : Type := S -> outcome A * S.

Definition ret {S A : Type} (a : A) : M S A := fun m => (Ret a, m).

Definition raise {S A : Type} (e : exn) : M S A := fun m => (Raise e, m).

Definition bind {S A B : Type} (c : M S A) (k : A -> M S B) : M S B :=
  fun m =>
    match c m with
    | (Ret a, m') => k a m'
    | (Raise e, m') => (Raise e, m')
    end.

(** [try: c / except: ...]: the outcome of [c], handed to the handler. *)
Definition attempt {S A : Type} (c : M S A) : M S (outcome A) :=
  fun m => let (r, m') := c m in (Ret r, m').

Definition lift {S A : Type} (r : outcome A) : M S A := fun m => (r, m).

Declare Scope py_scope.
Delimit Scope py_scope with py.
Notation "x <- c ;; k" := (bind c (fun x => k))
  (at level 61, c at next level, right associativity) : py_scope.
Notation "c ;;; k" := (bind c (fun _ => k))
  (at level 61, right associativity) : py_scope.

End Py.

(* ================================================================== *)
(** ** [compas.rpc.proxy]: the Proxy class *)
(* ================================================================== *)

Module Proxy.
Import Py.

(** An [xmlrpc] [ServerProxy] that has been created: it holds the address,
    and no connection is open yet. *)
Record ServerProxy : Type := mkServerProxy { uri : string }.

(** [getattr(server, name)]: a remote method, not yet called. *)
Record Method : Type := mkMethod { m_server : ServerProxy; m_name : string }.

(** A [subprocess.Popen] handle, identified by its pid. *)
Record Process : Type := mkProcess { pid : nat }.

(** The instance attributes set by [__init__]. *)
Record Proxy : Type := mkProxy {
  _package : option string;
  _python : string;
  _url : string;
  _port : Z;
  _process : option Process;
  _function : option Method;
  _profile : value;
  _server : option ServerProxy
}.

(** What the proxy does to the outside world, with what came back. *)
Inductive event : Type :=
| EvPing (server : ServerProxy) (r : outcome value)
| EvSleep (milliseconds : nat)
| EvPopen (args : list string) (r : outcome Process)
| EvRemoteShutdown (server : ServerProxy) (r : outcome value)
| EvTerminate (p : Process) (r : outcome unit)
| EvKill (p : Process) (r : outcome unit)
| EvCall (f : Method) (istring : string) (r : outcome value).

(** The outside world: how the server, the operating system and the
    process answer, given everything that happened so far. *)
Record Env : Type := mkEnv {
  ping_reply : list event -> ServerProxy -> outcome value;
  shutdown_reply : list event -> ServerProxy -> outcome value;
  call_reply : list event -> Method -> string -> outcome value;
  popen_reply : list event -> list string -> outcome Process;
  terminate_reply : list event -> Process -> outcome unit;
  kill_reply : list event -> Process -> outcome unit
}.

(** The proxy object together with the history of its effects. *)
Record machine : Type := mkMachine { self : Proxy; history : list event }.

(** A method body: state in, outcome and state out. *)
Definition M (A : Type) : Type := Py.M machine A.

Definition get_self : M Proxy := fun m => (Ret (self m), m).

Definition put_self (p : Proxy) : M unit :=
  fun m => (Ret tt, mkMachine p (history m)).

Definition emit (e : event) (m : machine) : machine :=
  mkMachine (self m) (history m ++ [e])%list.

Local Open Scope py_scope.

Definition set_process (p : option Process) (s : Proxy) : Proxy :=
  mkProxy (_package s) (_python s) (_url s) (_port s) p (_function s) (_profile s) (_server s).

Definition set_function (f : option Method) (s : Proxy) : Proxy :=
  mkProxy (_package s) (_python s) (_url s) (_port s) (_process s) f (_profile s) (_server s).

Definition set_profile (v : value) (s : Proxy) : Proxy :=
  mkProxy (_package s) (_python s) (_url s) (_port s) (_process s) (_function s) v (_server s).

Definition set_server (v : option ServerProxy) (s : Proxy) : Proxy :=
  mkProxy (_package s) (_python s) (_url s) (_port s) (_process s) (_function s) (_profile s) v.

Definition modify (f : Proxy -> Proxy) : M unit :=
  fun m => (Ret tt, mkMachine (f (self m)) (history m)).

(** [address]: ["{}:{}".format(self._url, self._port)]. *)
Definition address (s : Proxy) : string := _url s ++ ":" ++ str_of_Z (_port s).

(** [args = [python, '-m', 'compas.rpc.services.default', str(self._port)]]. *)
Definition spawn_args (s : Proxy) : list string :=
  [_python s; "-m"; "compas.rpc.services.default"; str_of_Z (_port s)].

Definition default_url : string := "http://127.0.0.1".
Definition default_port : Z := 1753.

Section WithEnv.

Variable env : Env.

(** [json.dumps(., cls=DataEncoder)] and [json.loads]: library calls. *)
Variable json_dumps : value -> outcome string.
Variable json_loads : value -> outcome value.

(** [compas._os.select_python]. *)
Variable select_python : option string -> string.

(** [ServerProxy(uri)] of [xmlrpc.client] contacts nobody, but it reads the
    uri and raises for one whose scheme it does not support.  [rejects uri]
    is what it raises for [uri], if anything: the library's decision. *)
Variable rejects : string -> option exn.

Definition new_ServerProxy (uri : string) : M ServerProxy :=
  match rejects uri with
  | Some e => raise e
  | None => ret (mkServerProxy uri)
  end.

(** *** Calls that leave the process *)

Definition ping (server : ServerProxy) : M value :=
  fun m => let r := ping_reply env (history m) server in (r, emit (EvPing server r) m).

Definition remote_shutdown (server : ServerProxy) : M value :=
  fun m => let r := shutdown_reply env (history m) server in
           (r, emit (EvRemoteShutdown server r) m).

Definition Popen (args : list string) : M Process :=
  fun m => let r := popen_reply env (history m) args in (r, emit (EvPopen args r) m).

Definition terminate (p : Process) : M unit :=
  fun m => let r := terminate_reply env (history m) p in (r, emit (EvTerminate p r) m).

Definition kill (p : Process) : M unit :=
  fun m => let r := kill_reply env (history m) p in (r, emit (EvKill p r) m).

Definition sleep (milliseconds : nat) : M unit :=
  fun m => (Ret tt, emit (EvSleep milliseconds) m).

(** [f(istring)] for [f = self._function]; calling [None] is a [TypeError]. *)
Definition call_function (f : option Method) (istring : string) : M value :=
  match f with
  | None => raise (TypeError "'NoneType' object is not callable")
  | Some g =>
      fun m => let r := call_reply env (history m) g istring in
               (r, emit (EvCall g istring r) m)
  end.

(** *** The methods *)

(** The proxy object is created before the [try]: what its constructor
    raises is not caught. *)
Definition try_reconnect : M (option ServerProxy) :=
  s <- get_self ;;
  server <- new_ServerProxy (address s) ;;
  r <- attempt (ping server) ;;
  match r with
  | Raise _ => ret None
  | Ret _ => ret (Some server)
  end.

(** The [while count:] loop of [start_server]; the result is [success]. *)
Fixpoint poll (server : ServerProxy) (count : nat) : M bool :=
  match count with
  | O => ret false
  | S count' =>
      r <- attempt (ping server) ;;
      match r with
      | Raise _ => sleep 10 ;;; poll server count'
      | Ret _ => ret true
      end
  end.

(** [start_server] runs on an object whose construction has been through
    [try_reconnect], where [ServerProxy] took this same address; creating
    the proxy object again is taken to succeed. *)
Definition start_server : M ServerProxy :=
  s <- get_self ;;
  let args := spawn_args s in
  p <- Popen args ;;
  modify (set_process (Some p)) ;;;
  s <- get_self ;;
  let server := mkServerProxy (address s) in
  success <- poll server 100 ;;
  if negb success
  then raise (RPCServerError [VStr "The server is no available."])
  else ret server.

Definition _terminate_process : M unit :=
  s <- get_self ;;
  match _process s with
  | None => ret tt
  | Some p =>
      _ <- attempt (terminate p) ;;
      _ <- attempt (kill p) ;;
      ret tt
  end.

(** [self._server.remote_shutdown()]. *)
Definition server_remote_shutdown : M value :=
  s <- get_self ;;
  match _server s with
  | None => raise (AttributeError "'NoneType' object has no attribute 'remote_shutdown'")
  | Some server => remote_shutdown server
  end.

Definition stop_server : M unit :=
  _ <- attempt server_remote_shutdown ;;
  _terminate_process.

(** [Proxy(package, python, url, port)], started from a given history. *)
Definition __init__ (package python : option string) (url : string) (port : Z) : M unit :=
  put_self (mkProxy None (select_python python) url port None None VNone None) ;;;
  modify (fun s => mkProxy package (_python s) (_url s) (_port s) (_process s)
                           (_function s) (_profile s) (_server s)) ;;;
  server <- try_reconnect ;;
  modify (set_server server) ;;;
  match server with
  | None =>
      server' <- start_server ;;
      modify (set_server (Some server'))
  | Some _ => ret tt
  end.

Definition __enter__ : M unit := ret tt.

Definition __exit__ : M unit := stop_server.

(** [__getattr__(name)]: binds [self._function]; the caller then calls
    [proxy]. *)
Definition __getattr__ (name : string) : M unit :=
  s <- get_self ;;
  let name := match _package s with
              | Some pkg => if negb (String.eqb pkg "") then pkg ++ "." ++ name else name
              | None => name
              end in
  match _server s with
  | None => raise (RPCServerError [])
  | Some server => modify (set_function (Some (mkMethod server name)))
  end.

(** The call envelope [{'args': args, 'kwargs': kwargs}]. *)
Definition idict (args : list value) (kwargs : list (string * value)) : value :=
  VDict [(KStr "args", VList args);
         (KStr "kwargs", VDict (map (fun kv => (KStr (fst kv), snd kv)) kwargs))].

Definition proxy (args : list value) (kwargs : list (string * value)) : M value :=
  istring <- lift (json_dumps (idict args kwargs)) ;;
  s <- get_self ;;
  r <- attempt (call_function (_function s) istring) ;;
  match r with
  | Raise e => stop_server ;;; raise e
  | Ret ostring =>
      if negb (truthy ostring)
      then raise (RPCServerError [VStr "No output was generated."])
      else
        result <- lift (json_loads ostring) ;;
        err <- lift (subscript result "error") ;;
        if truthy err
        then raise (RPCServerError [err])
        else
          profile <- lift (subscript result "profile") ;;
          modify (set_profile profile) ;;;
          lift (subscript result "data")
  end.

(** [p.name(...)] on a proxy [p], with any arguments: the attribute lookup goes
    to [__getattr__], and what it returns ([self.proxy]) is called. *)
Definition call (name : string) (args : list value) (kwargs : list (string * value))
  : M value :=
  __getattr__ name ;;; proxy args kwargs.

(** [with p: body]: [__enter__], the body, then [__exit__] on every path.
    [__exit__] returns [None], so an exception of the body is raised
    again once [__exit__] is done. *)
Definition with_ {A : Type} (body : M A) : M A :=
  __enter__ ;;;
  r <- attempt body ;;
  __exit__ ;;;
  lift r.

(** [stop_server] called [n] times in a row. *)
Fixpoint stop_server_times (n : nat) : M unit :=
  match n with
  | O => ret tt
  | S n' => stop_server ;;; stop_server_times n'
  end.

End WithEnv.

(** *** Reading histories *)

Definition is_ping (e : event) : bool :=
  match e with EvPing _ _ => true | _ => false end.

Definition is_sleep (e : event) : bool :=
  match e with EvSleep _ => true | _ => false end.

Definition is_popen (e : event) : bool :=
  match e with EvPopen _ _ => true | _ => false end.

Definition is_process_event (e : event) : bool :=
  match e with EvTerminate _ _ | EvKill _ _ => true | _ => false end.

Definition is_kill (e : event) : bool :=
  match e with EvKill _ _ => true | _ => false end.

Definition is_terminate (e : event) : bool :=
  match e with EvTerminate _ _ => true | _ => false end.

(** The effects that take a server or a process down. *)
Definition is_teardown (e : event) : bool :=
  match e with
  | EvRemoteShutdown _ _ | EvTerminate _ _ | EvKill _ _ => true
  | _ => false
  end.

Definition is_call (e : event) : bool :=
  match e with EvCall _ _ _ => true | _ => false end.

Definition count_pings (h : list event) : nat := List.length (filter is_ping h).

Definition count_sleeps (h : list event) : nat := List.length (filter is_sleep h).

(** One failed round of the polling loop: the ping raised, then the
    10 ms sleep. *)
Definition failed_round (server : ServerProxy) (e : exn) : list event :=
  [EvPing server (Raise e); EvSleep 10].

Definition failed_rounds (server : ServerProxy) (es : list exn) : list event :=
  flat_map (failed_round server) es.

(** *** The address check of [xmlrpc.client] *)

Definition lower (c : ascii) : ascii :=
  let n := nat_of_ascii c in
  if Nat.leb 65 n && Nat.leb n 90 then ascii_of_nat (n + 32) else c.

(** The scheme of a uri: what stands before the first colon, in lower
    case; none without a colon. *)
Fixpoint scheme_of (uri : string) : option string :=
  match uri with
  | EmptyString => None
  | String c rest =>
      if Ascii.eqb c ":" then Some EmptyString
      else option_map (String (lower c)) (scheme_of rest)
  end.

(** [ServerProxy.__init__]: [if p.scheme not in ("http", "https"): raise
    OSError("unsupported XML-RPC protocol")], for a uri free of white
    space and control characters. *)
Definition xmlrpc_rejects (uri : string) : option exn :=
  match scheme_of uri with
  | Some scheme =>
      if String.eqb scheme "http" || String.eqb scheme "https" then None
      else Some (Foreign "OSError" [VStr "unsupported XML-RPC protocol"])
  | None => Some (Foreign "OSError" [VStr "unsupported XML-RPC protocol"])
  end.

(** Environments used to run the model on concrete inputs. *)
Definition refused : exn := Foreign "ConnectionRefusedError" [].

(** Nothing listens, nothing can be spawned or stopped. *)
Definition env_dead : Env :=
  mkEnv (fun _ _ => Raise refused) (fun _ _ => Raise refused)
        (fun _ _ _ => Raise refused)
        (fun _ _ => Ret (mkProcess 4242))
        (fun _ _ => Raise (Foreign "OSError" []))
        (fun _ _ => Raise (Foreign "OSError" [])).

(** A server that answers every call with the given reply string. *)
Definition env_reply (ostring : value) : Env :=
  mkEnv (fun _ _ => Ret VNone) (fun _ _ => Ret VNone)
        (fun _ _ _ => Ret ostring)
        (fun _ _ => Ret (mkProcess 4242))
        (fun _ _ => Ret tt) (fun _ _ => Ret tt).

(** A server that comes up after the given number of events. *)
Definition env_slow (n : nat) : Env :=
  mkEnv (fun h _ => if Nat.leb n (List.length h) then Ret VNone else Raise refused)
        (fun _ _ => Ret VNone)
        (fun _ _ _ => Raise refused)
        (fun _ _ => Ret (mkProcess 4242))
        (fun _ _ => Ret tt) (fun _ _ => Ret tt).

Definition proxy0 : Proxy :=
  mkProxy None "pythonw" default_url default_port None None VNone None.

Definition server0 : ServerProxy := mkServerProxy (address proxy0).

(** A proxy configured with a bare host name, without [http://]. *)
Definition proxy_schemeless : Proxy :=
  mkProxy None "pythonw" "127.0.0.1" default_port None None VNone None.

(** A proxy that owns a process and has bound the remote [add]. *)
Definition proxy_owning : Proxy :=
  mkProxy (Some "demo") "pythonw" default_url default_port
          (Some (mkProcess 4242)) (Some (mkMethod server0 "demo.add"))
          VNone (Some server0).

(** A stand-in for the JSON codec on the handful of strings the examples
    use: the text of a reply is looked up in a table. *)
Definition table_loads (table : list (string * value)) (v : value) : outcome value :=
  match v with
  | VStr s =>
      match dict_get (map (fun kv => (KStr (fst kv), snd kv)) table) (KStr s) with
      | Some x => Ret x
      | None => Raise (Foreign "JSONDecodeError" [])
      end
  | _ => Raise (TypeError "the JSON object must be str, bytes or bytearray")
  end.

Definition const_dumps (text : string) (_ : value) : outcome string := Ret text.

(** Replies used below: the service answered [5], the service reported an
    error (and, against the protocol, data as well), the reply is empty. *)
Definition reply_ok : value :=
  VDict [(KStr "data", VInt 5); (KStr "error", VNone); (KStr "profile", VStr "0.01s")].

Definition reply_error : value :=
  VDict [(KStr "data", VInt 5); (KStr "error", VStr "boom"); (KStr "profile", VStr "0.01s")].

Definition replies : list (string * value) := [("OK", reply_ok); ("ERR", reply_error)].

(** The name [__getattr__] binds: prefixed by the package when there is a
    non-empty one. *)
Definition qualified (package : option string) (name : string) : string :=
  match package with
  | Some pkg => if negb (String.eqb pkg "") then pkg ++ "." ++ name else name
  | None => name
  end.

(** The reply envelope of the service. *)
Definition response (data error profile : value) : value :=
  VDict [(KStr "data", data); (KStr "error", error); (KStr "profile", profile)].

End Proxy.

(* ================================================================== *)
(** ** [compas_blender.artists.networkartist]: the NetworkArtist class *)
(* ================================================================== *)

Module Artist.
Import Py.
Local Open Scope py_scope.

(** An edge is a pair of node identifiers. *)
Definition edge : Type := (key * key)%type.

Definition edge_eqb (a b : edge) : bool :=
  key_eqb (fst a) (fst b) && key_eqb (snd a) (snd b).

(** [d.get(e, default)] for a dict keyed by edges. *)
Fixpoint edge_get {A : Type} (d : list (edge * A)) (e : edge) (default : A) : A :=
  match d with
  | [] => default
  | (e', v) :: d' => if edge_eqb e' e then v else edge_get d' e default
  end.

(** [d[e]] and [d[e] = v] for a dict keyed by edges. *)
Fixpoint edge_lookup {A : Type} (d : list (edge * A)) (e : edge) : option A :=
  match d with
  | [] => None
  | (e', v) :: d' => if edge_eqb e' e then Some v else edge_lookup d' e
  end.

Fixpoint edge_set {A : Type} (d : list (edge * A)) (e : edge) (v : A)
  : list (edge * A) :=
  match d with
  | [] => [(e, v)]
  | (e', v') :: d' =>
      if edge_eqb e' e then (e', v) :: d' else (e', v') :: edge_set d' e v
  end.

Definition edge_dict_of_pairs {A : Type} (l : list (edge * A)) : list (edge * A) :=
  fold_left (fun d ev => edge_set d (fst ev) (snd ev)) l [].

(** A value that is neither [None] nor a dict. *)
Inductive other_text : Type :=
| OtherBool (b : bool)
| OtherInt (z : Z)
| OtherStr (s : string)
| OtherList (l : list value).

(** The [text] argument of [draw_edgelabels]. *)
Inductive edge_text : Type :=
| EdgeTextNone
| EdgeTextDict (d : list (edge * value))
| EdgeTextOther (v : other_text).

(** [enumerate(l)], counting from [start]. *)
Fixpoint enumerate_from {A : Type} (start : nat) (l : list A) : list (nat * A) :=
  match l with
  | [] => []
  | x :: l' => (start, x) :: enumerate_from (S start) l'
  end.

Definition enumerate {A : Type} (l : list A) : list (nat * A) := enumerate_from 0 l.

(** [text == s] for a string literal [s]. *)
Definition equals_str (text : value) (s : string) : bool :=
  match text with
  | VStr t => String.eqb t s
  | _ => false
  end.

Section WithHost.

(** Data the artist hands on without looking inside. *)
Variable point : Type.       (* an xyz position *)
Variable color : Type.       (* an rgb colour, as [colordict] normalises it *)
Variable colorspec : Type.   (* a colour argument: name, tuple, list or dict *)
Variable bobject : Type.     (* a [bpy.types.Object] *)
Variable Collection : Type.  (* a [bpy.types.Collection] *)
Variable world : Type.       (* the Blender scene *)

(** The dictionaries given to [draw_points], [draw_lines], [draw_texts];
    radius and width are in hundredths (0.05 and 0.02). *)
Record point_spec : Type := mkPoint {
  pt_pos : point; pt_name : string; pt_color : color; pt_radius : Z
}.

Record line_spec : Type := mkLine {
  ln_start : point; ln_end : point; ln_color : color; ln_name : string; ln_width : Z
}.

Record text_spec : Type := mkText {
  tx_pos : point; tx_name : string; tx_text : value; tx_color : color
}.

(** The attributes the methods below read and write directly.  [base] is
    whatever else the base classes ([BlenderArtist] and
    [compas.artists.NetworkArtist], not part of these sources) keep in
    the instance. *)
Variable base : Type.

Record Artist : Type := mkArtist {
  _nodes : option (list key);
  network_name : string;
  node_xyz : list (key * point);
  default_nodecolor : color;
  default_edgecolor : color;
  collection : Collection;
  _nodecollection : option Collection;
  _edgecollection : option Collection;
  _nodelabelcollection : option Collection;
  _edgelabelcollection : option Collection;
  show_nodes : bool;
  show_edges : bool;
  inherited : base
}.

Record machine : Type := mkMachine { self : Artist; scene : world }.

Definition M (A : Type) : Type := Py.M machine A.

Definition get_self : M Artist := fun m => (Ret (self m), m).

Definition modify (f : Artist -> Artist) : M unit :=
  fun m => (Ret tt, mkMachine (f (self m)) (scene m)).

(** A call into [compas_blender]: it sees and changes the scene only. *)
Definition host {A : Type} (f : world -> outcome A * world) : M A :=
  fun m => let (r, w) := f (scene m) in (r, mkMachine (self m) w).

(** An inherited accessor: it sees and changes the instance only. *)
Definition accessor {A : Type} (f : Artist -> outcome A * Artist) : M A :=
  fun m => let (r, a) := f (self m) in (r, mkMachine a (scene m)).

(** [compas_blender]: the drawing interface. *)
Variable create_collection : string -> Collection -> world -> outcome Collection * world.
Variable draw_points : list point_spec -> Collection -> world -> outcome (list bobject) * world.
Variable draw_lines : list line_spec -> Collection -> world -> outcome (list bobject) * world.
Variable draw_texts : list text_spec -> Collection -> world -> outcome (list bobject) * world.

(** [colordict = partial(color_to_colordict, colorformat='rgb', normalize=True)]. *)
Variable colordict : option colorspec -> list key -> color -> outcome (list (key * color)).

(** The attributes [nodes], [edges], [node_color] and [edge_color] are
    assigned and read through the class; their accessors are inherited.
    Reading [node_color] / [edge_color] gives a dict, or [None] for
    anything without a [get] method. *)
Variable read_nodes : Artist -> outcome (option (list key)) * Artist.
Variable read_edges : Artist -> outcome (option (list edge)) * Artist.
Variable assign_node_color : option colorspec -> Artist -> outcome unit * Artist.
Variable assign_edge_color : option colorspec -> Artist -> outcome unit * Artist.
Variable read_node_color : Artist -> outcome (option (list (key * color))) * Artist.
Variable read_edge_color : Artist -> outcome (option (list (edge * color))) * Artist.

Definition set_nodecollection (c : Collection) (a : Artist) : Artist :=
  mkArtist (_nodes a) (network_name a) (node_xyz a) (default_nodecolor a)
           (default_edgecolor a) (collection a) (Some c) (_edgecollection a)
           (_nodelabelcollection a) (_edgelabelcollection a)
           (show_nodes a) (show_edges a) (inherited a).

Definition set_edgecollection (c : Collection) (a : Artist) : Artist :=
  mkArtist (_nodes a) (network_name a) (node_xyz a) (default_nodecolor a)
           (default_edgecolor a) (collection a) (_nodecollection a) (Some c)
           (_nodelabelcollection a) (_edgelabelcollection a)
           (show_nodes a) (show_edges a) (inherited a).

Definition set_nodelabelcollection (c : Collection) (a : Artist) : Artist :=
  mkArtist (_nodes a) (network_name a) (node_xyz a) (default_nodecolor a)
           (default_edgecolor a) (collection a) (_nodecollection a) (_edgecollection a)
           (Some c) (_edgelabelcollection a)
           (show_nodes a) (show_edges a) (inherited a).

(** The lazily created sub-collections. *)
Definition nodecollection : M Collection :=
  a <- get_self ;;
  match _nodecollection a with
  | Some c => ret c
  | None =>
      c <- host (create_collection "Nodes" (collection a)) ;;
      modify (set_nodecollection c) ;;;
      ret c
  end.

Definition edgecollection : M Collection :=
  a <- get_self ;;
  match _edgecollection a with
  | Some c => ret c
  | None =>
      c <- host (create_collection "Edges" (collection a)) ;;
      modify (set_edgecollection c) ;;;
      ret c
  end.

Definition nodelabelcollection : M Collection :=
  a <- get_self ;;
  match _nodelabelcollection a with
  | Some c => ret c
  | None =>
      c <- host (create_collection "NodeLabels" (collection a)) ;;
      modify (set_nodelabelcollection c) ;;;
      ret c
  end.

(** [for x in xs: out.append(body(x))]. *)
Fixpoint for_append {A B : Type} (body : A -> M B) (xs : list A) : M (list B) :=
  match xs with
  | [] => ret []
  | x :: xs' =>
      y <- body x ;;
      ys <- for_append body xs' ;;
      ret (y :: ys)
  end.

(** [for x in v]: [None] is not iterable. *)
Definition iterable {A : Type} (v : option (list A)) : M (list A) :=
  match v with
  | Some l => ret l
  | None => raise (TypeError "'NoneType' object is not iterable")
  end.

(** [self.node_xyz[node]]. *)
Definition xyz_of (node : key) : M point :=
  a <- get_self ;;
  match dict_get (node_xyz a) node with
  | Some p => ret p
  | None => raise (KeyError node)
  end.

(** [nodes or self.nodes]: an absent or empty argument falls back. *)
Definition selection_or {A : Type} (arg : option (list A))
  (fallback : M (option (list A))) : M (option (list A)) :=
  match arg with
  | Some (x :: l) => ret (Some (x :: l))
  | Some [] | None => fallback
  end.

Definition draw_nodes (nodes : option (list key)) (color : option colorspec)
  : M (list bobject) :=
  accessor (assign_node_color color) ;;;
  nodes <- selection_or nodes (accessor read_nodes) ;;
  nodes <- iterable nodes ;;
  points <- for_append
              (fun node =>
                 pos <- xyz_of node ;;
                 a <- get_self ;;
                 node_color <- accessor read_node_color ;;
                 match node_color with
                 | None => raise (AttributeError "object has no attribute 'get'")
                 | Some d =>
                     a' <- get_self ;;
                     let c := match dict_get d node with
                              | Some c => c
                              | None => default_nodecolor a'
                              end in
                     ret (mkPoint pos
                                  (network_name a ++ ".node." ++ str_of_key node)
                                  c 5)
                 end)
              nodes ;;
  coll <- nodecollection ;;
  host (draw_points points coll).

Definition draw_edges (edges : option (list edge)) (color : option colorspec)
  : M (list bobject) :=
  accessor (assign_edge_color color) ;;;
  edges <- selection_or edges (accessor read_edges) ;;
  edges <- iterable edges ;;
  lines <- for_append
             (fun e : edge =>
                start <- xyz_of (fst e) ;;
                stop <- xyz_of (snd e) ;;
                edge_color <- accessor read_edge_color ;;
                match edge_color with
                | None => raise (AttributeError "object has no attribute 'get'")
                | Some d =>
                    a <- get_self ;;
                    ret (mkLine start stop
                                (edge_get d e (default_edgecolor a))
                                (network_name a ++ ".edge." ++ str_of_key (fst e)
                                   ++ "-" ++ str_of_key (snd e))
                                2)
                end)
             edges ;;
  coll <- edgecollection ;;
  host (draw_lines lines coll).

(** The [if / elif / else] of [draw_nodelabels] that builds [node_text]. *)
Definition node_text_of (text : value) : M (list (key * value)) :=
  if negb (truthy text) || equals_str text "key" then
    nodes <- accessor read_nodes ;;
    nodes <- iterable nodes ;;
    ret (dict_of_pairs (map (fun vertex => (vertex, VStr (str_of_key vertex))) nodes))
  else if equals_str text "index" then
    a <- get_self ;;
    nodes <- iterable (_nodes a) ;;
    ret (dict_of_pairs
           (map (fun iv => (snd iv, VStr (str_of_Z (Z.of_nat (fst iv)))))
                (enumerate nodes)))
  else
    match text with
    | VDict d => ret d
    | _ => raise NotImplementedError
    end.

Definition draw_nodelabels (text : value) (color : option colorspec)
  : M (list bobject) :=
  node_text <- node_text_of text ;;
  a <- get_self ;;
  node_color <- lift (colordict color (dict_keys node_text) (default_nodecolor a)) ;;
  labels <- for_append
              (fun node =>
                 pos <- xyz_of node ;;
                 a <- get_self ;;
                 match dict_get node_text node, dict_get node_color node with
                 | Some t, Some c =>
                     ret (mkText pos
                                 (network_name a ++ ".nodelabel." ++ str_of_key node)
                                 t c)
                 | _, _ => raise (KeyError node)
                 end)
              (dict_keys node_text) ;;
  coll <- nodelabelcollection ;;
  host (draw_texts labels coll).

(** The label of one entry of [node_text]. *)
Definition label_of (a : Artist) (pos : key -> point) (col : key -> color)
  (kv : key * value) : text_spec :=
  mkText (pos (fst kv))
         (network_name a ++ ".nodelabel." ++ str_of_key (fst kv))
         (snd kv) (col (fst kv)).

(** *** Edge labels *)

Definition set_edgelabelcollection (c : Collection) (a : Artist) : Artist :=
  mkArtist (_nodes a) (network_name a) (node_xyz a) (default_nodecolor a)
           (default_edgecolor a) (collection a) (_nodecollection a) (_edgecollection a)
           (_nodelabelcollection a) (Some c)
           (show_nodes a) (show_edges a) (inherited a).

Definition edgelabelcollection : M Collection :=
  a <- get_self ;;
  match _edgelabelcollection a with
  | Some c => ret c
  | None =>
      c <- host (create_collection "EdgeLabels" (collection a)) ;;
      modify (set_edgelabelcollection c) ;;;
      ret c
  end.

(** [compas.geometry.centroid_points]. *)
Variable centroid_points : list point -> point.

(** [colordict] again, for a dict keyed by edges. *)
Variable colordict_edges :
  option colorspec -> list edge -> color -> outcome (list (edge * color)).

(** The label dictionaries of [draw_edgelabels] have no colour of their
    own; the colours go to [draw_texts] through its [color] keyword. *)
Record edge_label : Type := mkEdgeLabel {
  el_pos : point; el_name : string; el_text : value
}.

Variable draw_texts_colored :
  list edge_label -> Collection -> list (edge * color) -> world
  -> outcome (list bobject) * world.

(** The [if / elif / else] of [draw_edgelabels] that builds [edge_text]. *)
Definition edge_text_of (text : edge_text) : M (list (edge * value)) :=
  match text with
  | EdgeTextNone =>
      edges <- accessor read_edges ;;
      edges <- iterable edges ;;
      ret (edge_dict_of_pairs
             (map (fun e : edge =>
                     (e, VStr (str_of_key (fst e) ++ "-" ++ str_of_key (snd e))))
                  edges))
  | EdgeTextDict d => ret d
  | EdgeTextOther _ => raise NotImplementedError
  end.

Definition draw_edgelabels (text : edge_text) (color : option colorspec)
  : M (list bobject) :=
  edge_text <- edge_text_of text ;;
  a <- get_self ;;
  edge_color <- lift (colordict_edges color (map fst edge_text) (default_edgecolor a)) ;;
  labels <- for_append
              (fun e : edge =>
                 start <- xyz_of (fst e) ;;
                 stop <- xyz_of (snd e) ;;
                 a <- get_self ;;
                 match edge_lookup edge_text e with
                 | Some t =>
                     ret (mkEdgeLabel
                            (centroid_points [start; stop])
                            (network_name a ++ ".edgelabel." ++ str_of_key (fst e)
                               ++ "-" ++ str_of_key (snd e))
                            t)
                 | None => raise (KeyError (fst e))
                 end)
              (map fst edge_text) ;;
  coll <- edgelabelcollection ;;
  host (draw_texts_colored labels coll edge_color).

End WithHost.

Arguments mkText {point color} tx_pos tx_name tx_text tx_color.
Arguments mkPoint {point color} pt_pos pt_name pt_color pt_radius.
Arguments mkLine {point color} ln_start ln_end ln_color ln_name ln_width.
Arguments _nodes {point color Collection base} a.
Arguments network_name {point color Collection base} a.
Arguments node_xyz {point color Collection base} a.
Arguments default_nodecolor {point color Collection base} a.
Arguments _nodelabelcollection {point color Collection base} a.
Arguments self {point color Collection world base} m.
Arguments scene {point color Collection world base} m.
Arguments host {point color Collection world base A} f m.
Arguments nodelabelcollection {point color Collection world base} create_collection m.
Arguments draw_nodelabels {point color colorspec bobject Collection world base}.
Arguments draw_nodes {point color colorspec bobject Collection world base}.
Arguments draw_edges {point color colorspec bobject Collection world base}.
Arguments mkEdgeLabel {point} el_pos el_name el_text.
Arguments collection {point color Collection base} a.
Arguments default_edgecolor {point color Collection base} a.
Arguments _nodecollection {point color Collection base} a.
Arguments _edgecollection {point color Collection base} a.
Arguments _edgelabelcollection {point color Collection base} a.
Arguments get_self {point color Collection world base} m.
Arguments accessor {point color Collection world base A} f m.
Arguments iterable {point color Collection world base A} v m.
Arguments xyz_of {point color Collection world base} node m.
Arguments for_append {point color Collection world base A B} body xs m.
Arguments selection_or {point color Collection world base A} arg fallback m.
Arguments nodecollection {point color Collection world base} create_collection m.
Arguments edgecollection {point color Collection world base} create_collection m.
Arguments edgelabelcollection {point color Collection world base} create_collection m.
Arguments node_text_of {point color Collection world base} read_nodes text m.
Arguments edge_text_of {point color Collection world base} read_edges text m.
Arguments draw_edgelabels {point color colorspec bobject Collection world base}.
Arguments label_of {point color Collection base} a pos col kv.

(** *** A small host to run the artist on *)

Definition xyz : Type := (Z * Z * Z)%type.
Definition rgb : Type := (Z * Z * Z)%type.

Definition demo_create_collection (name parent : string) (w : list string)
  : outcome string * list string :=
  (Ret (parent ++ "/" ++ name), (w ++ [(parent ++ "/" ++ name)%string])%list).

(** A drawn object: its name and, for a label, its text. *)
Definition drawn : Type := (string * value)%type.

Definition demo_draw_points (points : list (point_spec xyz rgb)) (coll : string)
  (w : list string) : outcome (list drawn) * list string :=
  (Ret (map (fun p => (pt_name xyz rgb p, VNone)) points),
   (w ++ map (pt_name xyz rgb) points)%list).

Definition demo_draw_lines (lines : list (line_spec xyz rgb)) (coll : string)
  (w : list string) : outcome (list drawn) * list string :=
  (Ret (map (fun l => (ln_name xyz rgb l, VNone)) lines),
   (w ++ map (ln_name xyz rgb) lines)%list).

Definition demo_draw_texts (labels : list (text_spec xyz rgb)) (coll : string)
  (w : list string) : outcome (list drawn) * list string :=
  (Ret (map (fun t => (tx_name xyz rgb t, tx_text xyz rgb t)) labels),
   (w ++ map (tx_name xyz rgb) labels)%list).

Definition demo_colordict (c : option rgb) (keys : list key) (default : rgb)
  : outcome (list (key * rgb)) :=
  Ret (map (fun k => (k, match c with Some c' => c' | None => default end)) keys).

Definition demo_artist : Type := Artist xyz rgb string (list (key * rgb)).

(** The selection, or every node of the network when none is stored. *)
Definition demo_read_nodes (a : demo_artist) : outcome (option (list key)) * demo_artist :=
  (Ret (match _nodes a with
        | Some l => Some l
        | None => Some (dict_keys (node_xyz a))
        end), a).

Definition demo_assign_color (c : option rgb) (a : demo_artist) : outcome unit * demo_artist :=
  (Ret tt, a).

Definition demo_read_node_color (a : demo_artist)
  : outcome (option (list (key * rgb))) * demo_artist :=
  (Ret (Some (inherited _ _ _ _ a)), a).

(** A network with the nodes 7, 8 and 9, all three selected. *)
Definition artist789 : demo_artist :=
  mkArtist xyz rgb string (list (key * rgb))
    (Some [KInt 7; KInt 8; KInt 9]) "net"
    [(KInt 7, (0, 0, 0)%Z); (KInt 8, (1, 0, 0)%Z); (KInt 9, (1, 1, 0)%Z)]
    (1, 1, 1)%Z (0, 0, 0)%Z "net" None None None None true true [].

Definition demo_machine : machine xyz rgb string (list string) (list (key * rgb)) :=
  mkMachine _ _ _ _ _ artist789 [].

Definition demo_draw_nodelabels (text : value) (c : option rgb) :=
  draw_nodelabels (colorspec := rgb) (base := list (key * rgb))
    demo_create_collection demo_draw_texts demo_colordict demo_read_nodes text c.

Definition demo_draw_nodes (nodes : option (list key)) (c : option rgb) :=
  draw_nodes (colorspec := rgb) (base := list (key * rgb))
    demo_create_collection demo_draw_points demo_read_nodes
    demo_assign_color demo_read_node_color nodes c.

(** The network has the edges 7-8 and 8-9; edge selections are not stored. *)
Definition demo_read_edges (a : demo_artist)
  : outcome (option (list edge)) * demo_artist :=
  (Ret (Some [(KInt 7, KInt 8); (KInt 8, KInt 9)]), a).

(** Only the edge 7-8 has a colour of its own. *)
Definition demo_read_edge_color (a : demo_artist)
  : outcome (option (list (edge * rgb))) * demo_artist :=
  (Ret (Some [((KInt 7, KInt 8), (5, 5, 5)%Z)]), a).

Definition demo_colordict_edges (c : option rgb) (keys : list edge) (default : rgb)
  : outcome (list (edge * rgb)) :=
  Ret (map (fun e => (e, match c with Some c' => c' | None => default end)) keys).

(** The sum of the points: the centroid times their number, to stay within
    the integers. *)
Definition demo_centroid (ps : list xyz) : xyz :=
  fold_right (fun p acc : xyz =>
                match p, acc with
                | (x, y, z), (x', y', z') => (x + x', y + y', z + z')%Z
                end)
             (0, 0, 0)%Z ps.

Definition demo_draw_texts_colored (labels : list (edge_label xyz)) (coll : string)
  (colors : list (edge * rgb)) (w : list string) : outcome (list drawn) * list string :=
  (Ret (map (fun t => (el_name xyz t, el_text xyz t)) labels),
   (w ++ map (el_name xyz) labels)%list).

Definition demo_draw_edges (edges : option (list edge)) (c : option rgb) :=
  draw_edges (colorspec := rgb) (base := list (key * rgb))
    demo_create_collection demo_draw_lines demo_read_edges
    demo_assign_color demo_read_edge_color edges c.

Definition demo_draw_edgelabels (text : edge_text) (c : option rgb) :=
  draw_edgelabels (colorspec := rgb) (base := list (key * rgb))
    demo_create_collection demo_read_edges demo_centroid demo_colordict_edges
    demo_draw_texts_colored text c.

(** The position of a node of the demo network. *)
Definition demo_pos (k : key) : xyz :=
  match dict_get (node_xyz artist789) k with
  | Some p => p
  | None => (0, 0, 0)%Z
  end.

(** The demo network before any selection is stored. *)
Definition unselected_machine
  : machine xyz rgb string (list string) (list (key * rgb)) :=
  mkMachine _ _ _ _ _
    (mkArtist xyz rgb string (list (key * rgb))
       None "net"
       [(KInt 7, (0, 0, 0)%Z); (KInt 8, (1, 0, 0)%Z); (KInt 9, (1, 1, 0)%Z)]
       (1, 1, 1)%Z (0, 0, 0)%Z "net" None None None None true true [])
    [].

End Artist.

(* ================================================================== *)
(** ** The JSON text of the envelopes *)
(* ================================================================== *)

Module Json.
Import Py.
Local Open Scope char_scope.

(** JSON text, one character per element. *)
Definition text : Type := list ascii.

Definition quote : ascii := "034".
Definition backslash : ascii := "092".

Definition chars (s : string) : text := list_ascii_of_string s.

(** *** Writing *)

Fixpoint digits_of_uint (u : uint) : text :=
  match u with
  | Nil => []
  | D0 u' => "0" :: digits_of_uint u'
  | D1 u' => "1" :: digits_of_uint u'
  | D2 u' => "2" :: digits_of_uint u'
  | D3 u' => "3" :: digits_of_uint u'
  | D4 u' => "4" :: digits_of_uint u'
  | D5 u' => "5" :: digits_of_uint u'
  | D6 u' => "6" :: digits_of_uint u'
  | D7 u' => "7" :: digits_of_uint u'
  | D8 u' => "8" :: digits_of_uint u'
  | D9 u' => "9" :: digits_of_uint u'
  end.

(** An [int] in decimal, as [int.__repr__] writes it. *)
Definition encode_int (z : Z) : text :=
  match Z.to_int z with
  | Pos u => digits_of_uint u
  | Neg u => "-" :: digits_of_uint u
  end.

Definition hex_digit (n : N) : ascii :=
  nth (N.to_nat n)
      ["0"; "1"; "2"; "3"; "4"; "5"; "6"; "7"; "8"; "9"; "a"; "b"; "c"; "d"; "e"; "f"]
      "0".

(** One character of a string ([ensure_ascii=True]): the two-character
    escapes, a printable ASCII character as it is, anything else as a
    [\u00XX] escape. *)
Definition escape_char (c : ascii) : text :=
  if c =? quote then [backslash; quote]
  else if c =? backslash then [backslash; backslash]
  else if c =? "010" then [backslash; "n"]
  else if c =? "013" then [backslash; "r"]
  else if c =? "009" then [backslash; "t"]
  else if c =? "008" then [backslash; "b"]
  else if c =? "012" then [backslash; "f"]
  else
    let n := N_of_ascii c in
    if (32 <=? n)%N && (n <=? 126)%N then [c]
    else [backslash; "u"; "0"; "0"; hex_digit (n / 16); hex_digit (n mod 16)].

Fixpoint escape_string (s : string) : text :=
  match s with
  | EmptyString => []
  | String c s' => (escape_char c ++ escape_string s')%list
  end.

Definition encode_string (s : string) : text :=
  quote :: (escape_string s ++ [quote])%list.

(** A member name: a key that is not a string is written as its [str]. *)
Definition encode_key (k : key) : text := encode_string (str_of_key k).

(** Modelled from the spec: the text form of the "JSON-serialized {args,
    kwargs} structure".  The encoder class [DataEncoder] (compas.utilities)
    that [json.dumps] is given is not part of these sources; on the built-in
    values below it leaves the standard encoding untouched, which is what is
    written here: [", "] and [": "] as separators, ASCII output. *)
Fixpoint encode (v : value) : text :=
  match v with
  | VNone => chars "null"
  | VBool true => chars "true"
  | VBool false => chars "false"
  | VInt z => encode_int z
  | VStr s => encode_string s
  | VList l =>
      "[" :: ((fix elements (l : list value) : text :=
                 match l with
                 | [] => []
                 | x :: l' =>
                     encode x ++
                     match l' with
                     | [] => []
                     | _ :: _ => "," :: " " :: elements l'
                     end
                 end) l ++ ["]"])%list
  | VDict d =>
      "{" :: ((fix members (d : list (key * value)) : text :=
                 match d with
                 | [] => []
                 | (k, x) :: d' =>
                     encode_key k ++ ":" :: " " :: encode x ++
                     match d' with
                     | [] => []
                     | _ :: _ => "," :: " " :: members d'
                     end
                 end) d ++ ["}"])%list
  end.

(** The same two loops, by name. *)
Fixpoint encode_elements (l : list value) : text :=
  match l with
  | [] => []
  | x :: l' =>
      (encode x ++
       match l' with
       | [] => []
       | _ :: _ => "," :: " " :: encode_elements l'
       end)%list
  end.

Fixpoint encode_members (d : list (key * value)) : text :=
  match d with
  | [] => []
  | (k, x) :: d' =>
      (encode_key k ++ ":" :: " " :: encode x ++
       match d' with
       | [] => []
       | _ :: _ => "," :: " " :: encode_members d'
       end)%list
  end.

(** [json.dumps(v, cls=DataEncoder)]. *)
Definition dumps (v : value) : outcome string :=
  Ret (string_of_list_ascii (encode v)).

(** *** Reading *)

Definition is_ws (c : ascii) : bool :=
  (c =? " ") || (c =? "009") || (c =? "010") || (c =? "013").

Fixpoint skip_ws (s : text) : text :=
  match s with
  | [] => []
  | c :: r => if is_ws c then skip_ws r else s
  end.

(** [s] without the prefix [p], if it starts with it. *)
Fixpoint strip_prefix (p s : text) : option text :=
  match p, s with
  | [], _ => Some s
  | a :: p', b :: s' => if a =? b then strip_prefix p' s' else None
  | _ :: _, [] => None
  end.

Definition digit_of (c : ascii) : option (uint -> uint) :=
  if c =? "0" then Some D0 else if c =? "1" then Some D1
  else if c =? "2" then Some D2 else if c =? "3" then Some D3
  else if c =? "4" then Some D4 else if c =? "5" then Some D5
  else if c =? "6" then Some D6 else if c =? "7" then Some D7
  else if c =? "8" then Some D8 else if c =? "9" then Some D9
  else None.

(** The longest run of digits at the front. *)
Fixpoint read_uint (s : text) : uint * text :=
  match s with
  | [] => (Nil, [])
  | c :: r =>
      match digit_of c with
      | Some d => let (u, r') := read_uint r in (d u, r')
      | None => (Nil, s)
      end
  end.

(** What follows the digits makes the literal a float. *)
Definition float_mark (c : ascii) : bool := (c =? ".") || (c =? "e") || (c =? "E").

(** The optional minus sign. *)
Definition split_sign (s : text) : bool * text :=
  match s with
  | c :: r => if c =? "-" then (true, r) else (false, s)
  | [] => (false, s)
  end.

(** [0], or digits that do not start with [0]. *)
Definition plain_digits (u : uint) : bool :=
  match u with
  | Nil => false
  | D0 Nil => true
  | D0 _ => false
  | _ => true
  end.

Definition starts_float (r : text) : bool :=
  match r with
  | c :: _ => float_mark c
  | [] => false
  end.

(** An integer literal: an optional minus, then [0] or digits that do not
    start with [0]; a fraction or an exponent is not read. *)
Definition parse_number (s : text) : option (value * text) :=
  let (negative, s') := split_sign s in
  let (u, r) := read_uint s' in
  if plain_digits u && negb (starts_float r)
  then Some (VInt (if negative then - Z.of_uint u else Z.of_uint u)%Z, r)
  else None.

Definition hex_value (c : ascii) : option N :=
  let n := N_of_ascii c in
  if (48 <=? n)%N && (n <=? 57)%N then Some (n - 48)%N
  else if (97 <=? n)%N && (n <=? 102)%N then Some (n - 87)%N
  else if (65 <=? n)%N && (n <=? 70)%N then Some (n - 55)%N
  else None.

(** [\uXXXX]: the code point, when it is one a [string] here can hold. *)
Definition unicode_escape (h1 h2 h3 h4 : ascii) : option ascii :=
  match hex_value h1, hex_value h2, hex_value h3, hex_value h4 with
  | Some a, Some b, Some c, Some d =>
      let n := (((a * 16 + b) * 16 + c) * 16 + d)%N in
      if (n <? 256)%N then Some (ascii_of_N n) else None
  | _, _, _, _ => None
  end.

Definition unescape (c : ascii) : option ascii :=
  if c =? quote then Some quote
  else if c =? backslash then Some backslash
  else if c =? "/" then Some "/"
  else if c =? "b" then Some "008"
  else if c =? "f" then Some "012"
  else if c =? "n" then Some "010"
  else if c =? "r" then Some "013"
  else if c =? "t" then Some "009"
  else None.

(** The rest of a string literal, after its opening quote. *)
Fixpoint parse_string (s : text) : option (string * text) :=
  match s with
  | [] => None
  | c :: r =>
      if c =? quote then Some (EmptyString, r)
      else if c =? backslash then
        match r with
        | [] => None
        | e :: r1 =>
            if e =? "u" then
              match r1 with
              | h1 :: h2 :: h3 :: h4 :: r2 =>
                  match unicode_escape h1 h2 h3 h4 with
                  | Some c' =>
                      match parse_string r2 with
                      | Some (t, r') => Some (String c' t, r')
                      | None => None
                      end
                  | None => None
                  end
              | _ => None
              end
            else
              match unescape e with
              | Some c' =>
                  match parse_string r1 with
                  | Some (t, r') => Some (String c' t, r')
                  | None => None
                  end
              | None => None
              end
        end
      else if (N_of_ascii c <? 32)%N then None
      else
        match parse_string r with
        | Some (t, r') => Some (String c t, r')
        | None => None
        end
  end.

(** One value at the front of [s], and what is left.  The fuel bounds
    the nesting and the number of elements; [loads] gives enough. *)
Fixpoint parse_value (fuel : nat) (s : text) {struct fuel} : option (value * text) :=
  match fuel with
  | O => None
  | S fuel' =>
      match skip_ws s with
      | [] => None
      | c :: r =>
          if c =? "n" then option_map (pair VNone) (strip_prefix (chars "ull") r)
          else if c =? "t" then option_map (pair (VBool true)) (strip_prefix (chars "rue") r)
          else if c =? "f" then option_map (pair (VBool false)) (strip_prefix (chars "alse") r)
          else if c =? quote then
            match parse_string r with
            | Some (t, r') => Some (VStr t, r')
            | None => None
            end
          else if c =? "[" then
            match skip_ws r with
            | [] => None
            | c' :: r' =>
                if c' =? "]" then Some (VList [], r')
                else
                  match parse_elements fuel' r with
                  | Some (l, r'') => Some (VList l, r'')
                  | None => None
                  end
            end
          else if c =? "{" then
            match skip_ws r with
            | [] => None
            | c' :: r' =>
                if c' =? "}" then Some (VDict [], r')
                else
                  match parse_members fuel' r with
                  | Some (d, r'') => Some (VDict (dict_of_pairs d), r'')
                  | None => None
                  end
            end
          else parse_number (c :: r)
      end
  end

with parse_elements (fuel : nat) (s : text) {struct fuel} : option (list value * text) :=
  match fuel with
  | O => None
  | S fuel' =>
      match parse_value fuel' s with
      | None => None
      | Some (v, r) =>
          match skip_ws r with
          | [] => None
          | c :: r' =>
              if c =? "," then
                match parse_elements fuel' r' with
                | Some (l, r'') => Some (v :: l, r'')
                | None => None
                end
              else if c =? "]" then Some ([v], r')
              else None
          end
      end
  end

with parse_members (fuel : nat) (s : text) {struct fuel}
  : option (list (key * value) * text) :=
  match fuel with
  | O => None
  | S fuel' =>
      match skip_ws s with
      | [] => None
      | c :: r =>
          if c =? quote then
            match parse_string r with
            | None => None
            | Some (k, r1) =>
                match skip_ws r1 with
                | [] => None
                | c1 :: r2 =>
                    if c1 =? ":" then
                      match parse_value fuel' r2 with
                      | None => None
                      | Some (v, r3) =>
                          match skip_ws r3 with
                          | [] => None
                          | c3 :: r4 =>
                              if c3 =? "," then
                                match parse_members fuel' r4 with
                                | Some (d, r5) => Some ((KStr k, v) :: d, r5)
                                | None => None
                                end
                              else if c3 =? "}" then Some ([(KStr k, v)], r4)
                              else None
                          end
                      end
                    else None
                end
            end
          else None
      end
  end.

Definition decode_error (msg : string) : exn := Foreign "JSONDecodeError" [VStr msg].

(** Modelled from the spec: reading the envelope back, as the service
    (compas.rpc, not part of these sources) does with [json.loads].  The
    whole text must be one value, with white space allowed around it. *)
Definition loads (v : value) : outcome value :=
  match v with
  | VStr s =>
      match parse_value (S (List.length (chars s))) (chars s) with
      | Some (x, r) =>
          match skip_ws r with
          | [] => Ret x
          | _ :: _ => Raise (decode_error "Extra data")
          end
      | None => Raise (decode_error "Expecting value")
      end
  | _ => Raise (TypeError "the JSON object must be str, bytes or bytearray")
  end.

(** The values that JSON text holds as they are: every dict key is a
    string and no key occurs twice. *)
Fixpoint distinct_keys (ks : list key) : bool :=
  match ks with
  | [] => true
  | k :: ks' => negb (existsb (key_eqb k) ks') && distinct_keys ks'
  end.

Definition is_str_key (k : key) : bool :=
  match k with KStr _ => true | KInt _ => false end.

Fixpoint json_native (v : value) : bool :=
  match v with
  | VNone | VBool _ | VInt _ | VStr _ => true
  | VList l =>
      (fix all (l : list value) : bool :=
         match l with
         | [] => true
         | x :: l' => json_native x && all l'
         end) l
  | VDict d =>
      forallb is_str_key (map fst d) && distinct_keys (map fst d) &&
      (fix all (d : list (key * value)) : bool :=
         match d with
         | [] => true
         | (_, x) :: d' => json_native x && all d'
         end) d
  end.

(** *** Notions used to state what the reader does *)

Local Open Scope list_scope.

Definition is_digit (c : ascii) : bool :=
  match digit_of c with Some _ => true | None => false end.

(** What may follow an integer literal: anything but a digit, a point or
    an exponent. *)
Definition number_end (rest : text) : bool :=
  match rest with
  | [] => true
  | c :: _ => negb (is_digit c) && negb (float_mark c)
  end.

(** A value starts with a digit or a minus sign exactly when it is a
    number. *)
Definition number_start (s : text) : bool :=
  match s with
  | c :: _ => is_digit c || (c =? "-")
  | [] => false
  end.

(** What follows an element or a member: a comma or the closing bracket. *)
Definition continuation {A : Type} (encode_rest : list A -> text) (close : ascii)
  (l : list A) (rest : text) : text :=
  match l with
  | [] => close :: rest
  | _ :: _ => "," :: " " :: encode_rest l ++ close :: rest
  end.

(** With this much fuel the reader gets back a written value, a written
    run of elements, a written run of members. *)
Definition reads_value (fuel : nat) : Prop :=
  forall (v : value) (rest : text),
    json_native v = true ->
    number_end rest = true ->
    List.length (encode v) <= fuel ->
    parse_value fuel (encode v ++ rest) = Some (v, rest).

Definition reads_elements (fuel : nat) : Prop :=
  forall (l : list value) (rest : text),
    l <> [] ->
    forallb json_native l = true ->
    List.length (encode_elements l) < fuel ->
    parse_elements fuel (encode_elements l ++ "]" :: rest) = Some (l, rest).

Definition reads_members (fuel : nat) : Prop :=
  forall (d : list (key * value)) (rest : text),
    d <> [] ->
    forallb is_str_key (map fst d) = true ->
    forallb json_native (map snd d) = true ->
    List.length (encode_members d) < fuel ->
    parse_members fuel (encode_members d ++ "}" :: rest) = Some (d, rest).

End Json.

(* ================================================================== *)
(** ** Properties of the proxy *)
(* ================================================================== *)

Module ProxyFacts.
Import Py Proxy.
Local Open Scope py_scope.

Ltac run :=
  unfold bind, attempt, lift, ret, raise, get_self, put_self, modify, emit; simpl.

Lemma count_pings_app (h k : list event) :
  count_pings (h ++ k) = count_pings h + count_pings k.
Proof.
  unfold count_pings. rewrite filter_app, length_app. reflexivity.
Qed.

Lemma count_sleeps_app (h k : list event) :
  count_sleeps (h ++ k) = count_sleeps h + count_sleeps k.
Proof.
  unfold count_sleeps. rewrite filter_app, length_app. reflexivity.
Qed.

Lemma count_pings_failed_rounds (server : ServerProxy) (es : list exn) :
  count_pings (failed_rounds server es) = List.length es.
Proof.
  induction es as [|e es IH]; simpl; [reflexivity|].
  unfold count_pings in *. simpl. now rewrite IH.
Qed.

Lemma count_sleeps_failed_rounds (server : ServerProxy) (es : list exn) :
  count_sleeps (failed_rounds server es) = List.length es.
Proof.
  induction es as [|e es IH]; simpl; [reflexivity|].
  unfold count_sleeps in *. simpl. now rewrite IH.
Qed.

(** One turn of the [while count:] loop. *)
Lemma poll_S (env : Env) (server : ServerProxy) (count : nat) (m : machine) :
  poll env server (S count) m =
  match ping_reply env (history m) server with
  | Ret v => (Ret true, emit (EvPing server (Ret v)) m)
  | Raise e =>
      poll env server count (emit (EvSleep 10) (emit (EvPing server (Raise e)) m))
  end.
Proof.
  simpl. unfold bind, attempt, ping, sleep, ret.
  destruct (ping_reply env (history m) server); reflexivity.
Qed.

(** The polling loop: [count] failed rounds and [success = False], or
    fewer failed rounds, one ping that answered, and [success = True]. *)
Lemma poll_spec (env : Env) (server : ServerProxy) :
  forall (count : nat) (m : machine),
    self (snd (poll env server count m)) = self m /\
    exists es : list exn,
      (fst (poll env server count m) = Ret false /\
       List.length es = count /\
       history (snd (poll env server count m))
       = (history m ++ failed_rounds server es)%list)
      \/
      (exists v : value,
         fst (poll env server count m) = Ret true /\
         List.length es < count /\
         history (snd (poll env server count m))
         = (history m ++ failed_rounds server es ++ [EvPing server (Ret v)])%list).
Proof.
  induction count as [|count IH]; intro m.
  - split; [reflexivity|]. exists []. left. simpl. rewrite app_nil_r. auto.
  - rewrite poll_S.
    destruct (ping_reply env (history m) server) as [v|e].
    + split; [reflexivity|]. exists []. right. exists v.
      split; [reflexivity|]. split; [simpl; lia|]. reflexivity.
    + set (m1 := emit (EvSleep 10) (emit (EvPing server (Raise e)) m)).
      destruct (IH m1) as [Hself [es Hes]].
      split; [rewrite Hself; reflexivity|].
      exists (e :: es).
      destruct Hes as [(Hr & Hlen & Hh) | (v & Hr & Hlen & Hh)].
      * left. split; [exact Hr|]. split; [simpl; lia|].
        rewrite Hh. unfold m1, emit. simpl. now rewrite <- !app_assoc.
      * right. exists v. split; [exact Hr|]. split; [simpl; lia|].
        rewrite Hh. unfold m1, emit. simpl. now rewrite <- !app_assoc.
Qed.

(** What [stop_server] does, in full. *)
Lemma stop_server_spec (env : Env) (m : machine) :
  fst (stop_server env m) = Ret tt /\
  self (snd (stop_server env m)) = self m /\
  exists sd : list event,
    match _server (self m) with
    | None => sd = []
    | Some server => exists r, sd = [EvRemoteShutdown server r]
    end /\
    match _process (self m) with
    | None => history (snd (stop_server env m)) = (history m ++ sd)%list
    | Some p =>
        exists r1 r2,
          history (snd (stop_server env m))
          = (history m ++ sd ++ [EvTerminate p r1; EvKill p r2])%list
    end.
Proof.
  destruct m as [[pk py u po [p|] f pr [server|]] h];
    unfold stop_server, server_remote_shutdown, _terminate_process,
      remote_shutdown, terminate, kill; run;
    (split; [reflexivity|]); (split; [reflexivity|]).
  - eexists. split; [eexists; reflexivity|].
    do 2 eexists. rewrite <- !app_assoc. reflexivity.
  - exists []. split; [reflexivity|].
    do 2 eexists. rewrite <- !app_assoc. reflexivity.
  - eexists. split; [eexists; reflexivity|]. reflexivity.
  - exists []. split; [reflexivity|]. now rewrite app_nil_r.
Qed.

(** *** Reconnection *)

(** C5, amended.  For an address that [ServerProxy] takes, [try_reconnect]
    never raises: it returns the server when the ping answers and [None]
    when the ping raises, whatever it raises.  For an address that
    [ServerProxy] rejects, [try_reconnect] raises what the constructor
    raised, and no ping is made. *)
Theorem try_reconnect_raises_only_at_construction (env : Env)
  (rejects : string -> option exn) (m : machine) :
  let server := mkServerProxy (address (self m)) in
  match rejects (address (self m)) with
  | None =>
      (exists o, fst (try_reconnect env rejects m) = Ret o) /\
      match ping_reply env (history m) server with
      | Ret v =>
          try_reconnect env rejects m
          = (Ret (Some server), emit (EvPing server (Ret v)) m)
      | Raise e =>
          try_reconnect env rejects m
          = (Ret None, emit (EvPing server (Raise e)) m)
      end
  | Some e => try_reconnect env rejects m = (Raise e, m)
  end.
Proof.
  unfold try_reconnect, new_ServerProxy, ping, bind, get_self, attempt, ret, raise.
  cbv zeta. destruct m as [s h]. cbn -[address].
  destruct (rejects (address s)) as [e|]; cbn -[address]; [reflexivity|].
  destruct (ping_reply env h _) as [v|e]; cbn -[address];
    (split; [eexists; reflexivity | reflexivity]).
Qed.

(** The address check on a few addresses. *)
Example xmlrpc_rejects_samples :
  xmlrpc_rejects "http://127.0.0.1:1753" = None /\
  xmlrpc_rejects "HTTPS://example.org:443" = None /\
  xmlrpc_rejects "127.0.0.1:1753"
  = Some (Foreign "OSError" [VStr "unsupported XML-RPC protocol"]) /\
  xmlrpc_rejects "localhost"
  = Some (Foreign "OSError" [VStr "unsupported XML-RPC protocol"]) /\
  xmlrpc_rejects "ftp://127.0.0.1:21"
  = Some (Foreign "OSError" [VStr "unsupported XML-RPC protocol"]).
Proof. repeat split. Qed.

(** Nothing listens on the default address: no connection, no exception. *)
Example try_reconnect_no_listener :
  try_reconnect env_dead xmlrpc_rejects (mkMachine proxy0 [])
  = (Ret None, mkMachine proxy0 [EvPing server0 (Raise refused)]).
Proof. reflexivity. Qed.

(** C5 as stated fails: with [url='127.0.0.1'] the address is
    [127.0.0.1:1753], which has no http scheme; [ServerProxy] raises
    [OSError] outside the [try], and [try_reconnect] raises it without
    having pinged. *)
Lemma try_reconnect_schemeless_address_raises :
  address proxy_schemeless = "127.0.0.1:1753" /\
  try_reconnect env_dead xmlrpc_rejects (mkMachine proxy_schemeless [])
  = (Raise (Foreign "OSError" [VStr "unsupported XML-RPC protocol"]),
     mkMachine proxy_schemeless []).
Proof. split; reflexivity. Qed.

(** *** Startup *)

(** [start_server], step by step. *)
Lemma start_server_eq (env : Env) (m : machine) :
  start_server env m =
  match popen_reply env (history m) (spawn_args (self m)) with
  | Raise e => (Raise e, emit (EvPopen (spawn_args (self m)) (Raise e)) m)
  | Ret p =>
      let m1 := mkMachine (set_process (Some p) (self m))
                          (history m ++ [EvPopen (spawn_args (self m)) (Ret p)]) in
      match poll env (mkServerProxy (address (self m))) 100 m1 with
      | (Ret true, m2) => (Ret (mkServerProxy (address (self m))), m2)
      | (Ret false, m2) =>
          (Raise (RPCServerError [VStr "The server is no available."]), m2)
      | (Raise e, m2) => (Raise e, m2)
      end
  end.
Proof.
  unfold start_server, Popen, spawn_args, bind, modify, get_self, emit, ret, raise.
  cbn [self history].
  destruct (popen_reply env (history m) _) as [p|e]; [|reflexivity].
  cbv zeta.
  change (address (set_process (Some p) (self m))) with (address (self m)).
  destruct (poll env _ 100 _) as [[[|]|e] m2]; reflexivity.
Qed.


(** A target that never answers: 100 pings, 100 sleeps, then the error. *)
Example start_server_dead_target :
  fst (start_server env_dead (mkMachine proxy0 []))
  = Raise (RPCServerError [VStr "The server is no available."]) /\
  count_pings (history (snd (start_server env_dead (mkMachine proxy0 [])))) = 100 /\
  count_sleeps (history (snd (start_server env_dead (mkMachine proxy0 [])))) = 100.
Proof. vm_compute. repeat split. Qed.

(** A target that answers the fourth ping. *)
Example start_server_slow_target :
  fst (start_server (env_slow 7) (mkMachine proxy0 [])) = Ret server0 /\
  count_pings (history (snd (start_server (env_slow 7) (mkMachine proxy0 [])))) = 4.
Proof. vm_compute. repeat split. Qed.

(** *** Shutdown *)

(** C4.  [stop_server] never raises, whatever the remote shutdown,
    [terminate] and [kill] do; it leaves the object unchanged; without a
    process handle it touches no process; and a second call does not
    raise either. *)
Theorem stop_server_never_raises (env : Env) (m : machine) :
  let m' := snd (stop_server env m) in
  fst (stop_server env m) = Ret tt /\
  self m' = self m /\
  (exists sd : list event,
     match _server (self m) with
     | None => sd = []
     | Some server => exists r, sd = [EvRemoteShutdown server r]
     end /\
     match _process (self m) with
     | None => history m' = (history m ++ sd)%list
     | Some p =>
         exists r1 r2,
           history m' = (history m ++ sd ++ [EvTerminate p r1; EvKill p r2])%list
     end) /\
  (_process (self m) = None ->
   filter is_process_event (history m') = filter is_process_event (history m)) /\
  fst (stop_server env m') = Ret tt.
Proof.
  cbv zeta.
  destruct (stop_server_spec env m) as (Hr & Hs & sd & Hsd & Hh).
  split; [exact Hr|]. split; [exact Hs|].
  split; [exists sd; split; assumption|].
  split.
  - intro Hnone. rewrite Hnone in Hh. rewrite Hh, filter_app.
    destruct (_server (self m)) as [server|].
    + destruct Hsd as [r ->]. simpl. now rewrite app_nil_r.
    + subst sd. simpl. now rewrite app_nil_r.
  - apply stop_server_spec.
Qed.

(** Both [terminate] and [kill] raise, the remote shutdown raises: the
    two calls in a row still return normally. *)
Example stop_server_twice_dead :
  fst (stop_server env_dead (mkMachine proxy_owning [])) = Ret tt /\
  fst (stop_server env_dead (snd (stop_server env_dead (mkMachine proxy_owning []))))
  = Ret tt.
Proof. split; reflexivity. Qed.

(** *** Remote calls *)

Section Calls.

Variable env : Env.
Variable json_dumps : value -> outcome string.
Variable json_loads : value -> outcome value.

(** [proxy] once the request text is known, by the outcome of the
    transport step. *)
Lemma proxy_eq (args : list value) (kwargs : list (string * value))
  (istring : string) (m : machine) :
  json_dumps (idict args kwargs) = Ret istring ->
  proxy env json_dumps json_loads args kwargs m =
  match call_function env (_function (self m)) istring m with
  | (Raise e, m1) =>
      match stop_server env m1 with
      | (Ret _, m2) => (Raise e, m2)
      | (Raise e', m2) => (Raise e', m2)
      end
  | (Ret ostring, m1) =>
      if negb (truthy ostring)
      then (Raise (RPCServerError [VStr "No output was generated."]), m1)
      else
        match json_loads ostring with
        | Raise e => (Raise e, m1)
        | Ret result =>
            match subscript result "error" with
            | Raise e => (Raise e, m1)
            | Ret err =>
                if truthy err
                then (Raise (RPCServerError [err]), m1)
                else
                  match subscript result "profile" with
                  | Raise e => (Raise e, m1)
                  | Ret profile =>
                      (subscript result "data",
                       mkMachine (set_profile profile (self m1)) (history m1))
                  end
            end
        end
  end.
Proof.
  intro Hdumps. unfold proxy. rewrite Hdumps.
  unfold bind at 1 2 3, lift, get_self, attempt.
  destruct (call_function env (_function (self m)) istring m) as [[ostring|e] m1].
  - destruct (truthy ostring); cbn [negb]; [|reflexivity].
    unfold bind at 1. destruct (json_loads ostring) as [result|e]; [|reflexivity].
    unfold bind at 1. destruct (subscript result "error") as [err|e]; [|reflexivity].
    destruct (truthy err); [reflexivity|].
    unfold bind at 1. destruct (subscript result "profile") as [pr|e]; [|reflexivity].
    unfold bind, modify. destruct (subscript result "data"); reflexivity.
  - unfold bind, raise. destruct (stop_server env m1) as [[u|e'] m2]; reflexivity.
Qed.

(** The transport step when [self._function] is bound. *)
Lemma call_function_bound (f : Method) (istring : string) (m : machine) :
  call_function env (Some f) istring m
  = (call_reply env (history m) f istring,
     emit (EvCall f istring (call_reply env (history m) f istring)) m).
Proof. reflexivity. Qed.

(** C3.  When the transport step raises, [proxy] runs [stop_server] (the
    remote shutdown request, then [terminate] and [kill] on the owned
    process) and then raises the very exception the transport raised. *)
Theorem proxy_transport_failure (args : list value) (kwargs : list (string * value))
  (istring : string) (e : exn) (m : machine) :
  json_dumps (idict args kwargs) = Ret istring ->
  fst (call_function env (_function (self m)) istring m) = Raise e ->
  let m1 := snd (call_function env (_function (self m)) istring m) in
  let m' := snd (stop_server env m1) in
  proxy env json_dumps json_loads args kwargs m = (Raise e, m') /\
  self m' = self m /\
  exists sd : list event,
    match _server (self m) with
    | None => sd = []
    | Some server => exists r, sd = [EvRemoteShutdown server r]
    end /\
    match _process (self m) with
    | None => history m' = (history m1 ++ sd)%list
    | Some p =>
        exists r1 r2,
          history m' = (history m1 ++ sd ++ [EvTerminate p r1; EvKill p r2])%list
    end.
Proof.
  intros Hdumps Hcall. cbv zeta.
  rewrite (proxy_eq args kwargs istring m Hdumps).
  assert (Hself : self (snd (call_function env (_function (self m)) istring m)) = self m).
  { destruct (_function (self m)); reflexivity. }
  destruct (call_function env (_function (self m)) istring m) as [r m1].
  cbn [fst snd] in *. subst r.
  destruct (stop_server_spec env m1) as (Hr & Hs & sd & Hsd & Hh).
  destruct (stop_server env m1) as [r2 m2]. cbn [fst snd] in *. subst r2.
  split; [reflexivity|]. split; [congruence|].
  exists sd. rewrite <- Hself. split; assumption.
Qed.


(** C9.  A reply whose [error] field is truthy makes [proxy] raise the
    remote error and nothing else: the proxy object (process handle,
    server, profile) is as before and the only effect is the call itself,
    with no shutdown request, no [terminate] and no [kill]. *)
Theorem proxy_remote_error_no_teardown (args : list value)
  (kwargs : list (string * value)) (istring : string) (f : Method)
  (ostring result err : value) (m : machine) :
  json_dumps (idict args kwargs) = Ret istring ->
  _function (self m) = Some f ->
  call_reply env (history m) f istring = Ret ostring ->
  truthy ostring = true ->
  json_loads ostring = Ret result ->
  subscript result "error" = Ret err ->
  truthy err = true ->
  let m' := snd (proxy env json_dumps json_loads args kwargs m) in
  fst (proxy env json_dumps json_loads args kwargs m) = Raise (RPCServerError [err]) /\
  self m' = self m /\
  _process (self m') = _process (self m) /\
  _server (self m') = _server (self m) /\
  _profile (self m') = _profile (self m) /\
  history m' = (history m ++ [EvCall f istring (Ret ostring)])%list.
Proof.
  intros Hdumps Hf Hreply Hout Hloads Herr Htruthy. cbv zeta.
  rewrite (proxy_eq args kwargs istring m Hdumps), Hf, call_function_bound, Hreply.
  rewrite Hout, Hloads, Herr, Htruthy. cbn [negb fst snd].
  repeat split; reflexivity.
Qed.

End Calls.


(** The same call, read for what it leaves behind. *)
Lemma proxy_remote_error_no_teardown_witness :
  let m := mkMachine proxy_owning [] in
  let run := proxy (env_reply (VStr "ERR")) (const_dumps "{}") (table_loads replies)
                   [VInt 2; VInt 3] [] m in
  fst run = Raise (RPCServerError [VStr "boom"]) /\
  self (snd run) = proxy_owning /\
  _process (self (snd run)) = Some (mkProcess 4242) /\
  _server (self (snd run)) = Some server0 /\
  _profile (self (snd run)) = VNone /\
  history (snd run) = [EvCall (mkMethod server0 "demo.add") "{}" (Ret (VStr "ERR"))].
Proof.
  exact (proxy_remote_error_no_teardown
           (env_reply (VStr "ERR")) (const_dumps "{}") (table_loads replies)
           [VInt 2; VInt 3] [] "{}" (mkMethod server0 "demo.add")
           (VStr "ERR") reply_error (VStr "boom") (mkMachine proxy_owning [])
           eq_refl eq_refl eq_refl eq_refl eq_refl eq_refl eq_refl).
Defined.

(** The spec's scenario: [demo.add(2, 3)] answers [5] and a profile. *)
Example proxy_add_2_3 :
  proxy (env_reply (VStr "OK")) (const_dumps "{}") (table_loads replies)
        [VInt 2; VInt 3] [] (mkMachine proxy_owning [])
  = (Ret (VInt 5),
     mkMachine (set_profile (VStr "0.01s") proxy_owning)
       [EvCall (mkMethod server0 "demo.add") "{}" (Ret (VStr "OK"))]).
Proof. reflexivity. Qed.

(** An empty reply. *)
Example proxy_empty_reply :
  fst (proxy (env_reply (VStr "")) (const_dumps "{}") (table_loads replies)
         [VInt 2; VInt 3] [] (mkMachine proxy_owning []))
  = Raise (RPCServerError [VStr "No output was generated."]).
Proof. reflexivity. Qed.


(** The connection drops during a call made by a proxy that owns its
    process: shutdown request, terminate, kill, then the original error. *)
Lemma proxy_transport_failure_witness :
  proxy env_dead (const_dumps "{}") (table_loads []) [VInt 2; VInt 3] []
        (mkMachine proxy_owning [])
  = (Raise refused,
     mkMachine proxy_owning
       [EvCall (mkMethod server0 "demo.add") "{}" (Raise refused);
        EvRemoteShutdown server0 (Raise refused);
        EvTerminate (mkProcess 4242) (Raise (Foreign "OSError" []));
        EvKill (mkProcess 4242) (Raise (Foreign "OSError" []))]).
Proof.
  exact (proj1 (proxy_transport_failure env_dead (const_dumps "{}") (table_loads [])
                  [VInt 2; VInt 3] [] "{}" refused
                  (mkMachine proxy_owning []) eq_refl eq_refl)).
Defined.

(** *** Construction *)

(** The first effect of [start_server] is the spawn. *)
Lemma start_server_history (env : Env) (m : machine) :
  exists r rest,
    history (snd (start_server env m))
    = (history m ++ EvPopen (spawn_args (self m)) r :: rest)%list.
Proof.
  rewrite start_server_eq.
  destruct (popen_reply env (history m) (spawn_args (self m))) as [p|e].
  - cbv zeta.
    set (server := mkServerProxy (address (self m))). set (m1 := mkMachine _ _).
    destruct (poll_spec env server 100 m1) as [_ [es Hes]].
    exists (Ret p).
    destruct (poll env server 100 m1) as [[[|]|e] m2]; cbn [fst snd] in *;
      destruct Hes as [(_ & _ & Hh) | (v & _ & _ & Hh)];
      rewrite Hh; unfold m1; cbn [history]; rewrite <- app_assoc;
      eexists; reflexivity.
  - exists (Raise e), []. reflexivity.
Qed.

(** [__init__], by what [ServerProxy] makes of the address and by the
    outcome of the reconnection ping. *)
Lemma init_eq (env : Env) (select_python : option string -> string)
  (rejects : string -> option exn)
  (package python : option string) (url : string) (port : Z) (m0 : machine) :
  let s0 := mkProxy package (select_python python) url port None None VNone None in
  let server := mkServerProxy (address s0) in
  __init__ env select_python rejects package python url port m0 =
  match rejects (address s0) with
  | Some e => (Raise e, mkMachine s0 (history m0))
  | None =>
      match ping_reply env (history m0) server with
      | Ret v =>
          (Ret tt, mkMachine (set_server (Some server) s0)
                             (history m0 ++ [EvPing server (Ret v)]))
      | Raise e =>
          match start_server env
                  (mkMachine s0 (history m0 ++ [EvPing server (Raise e)])) with
          | (Ret server', m2) =>
              (Ret tt, mkMachine (set_server (Some server') (self m2)) (history m2))
          | (Raise e', m2) => (Raise e', m2)
          end
      end
  end.
Proof.
  cbv zeta.
  unfold __init__, try_reconnect, new_ServerProxy, ping, bind, put_self, modify,
    get_self, attempt, ret, raise.
  cbn -[start_server address].
  destruct (rejects _) as [e0|]; cbn -[start_server address]; [reflexivity|].
  destruct (ping_reply env (history m0) _) as [v|e]; cbn -[start_server address].
  - reflexivity.
  - destruct (start_server env _) as [[server'|e'] m2]; reflexivity.
Qed.

(** C6.  Construction attempts the reconnection first, and spawns only
    when that attempt has given no connection.  When the ping answers,
    nothing is spawned: the only effect is that ping, the process handle
    stays [None], and a later [stop_server] sends the shutdown request and
    touches no process.  When the ping raises, the spawn follows as the
    very next effect.  When the attempt itself raises (the address is one
    [ServerProxy] rejects), construction raises with it and nothing has
    been pinged or spawned. *)
Theorem init_reconnect_before_spawn (env : Env)
  (select_python : option string -> string) (rejects : string -> option exn)
  (package python : option string) (url : string) (port : Z) (m0 : machine) :
  let s0 := mkProxy package (select_python python) url port None None VNone None in
  let server := mkServerProxy (address s0) in
  let run := __init__ env select_python rejects package python url port m0 in
  match rejects (address s0) with
  | Some e0 =>
      fst run = Raise e0 /\
      _process (self (snd run)) = None /\
      history (snd run) = history m0
  | None =>
      match ping_reply env (history m0) server with
      | Ret v =>
          fst run = Ret tt /\
          _server (self (snd run)) = Some server /\
          _process (self (snd run)) = None /\
          history (snd run) = (history m0 ++ [EvPing server (Ret v)])%list /\
          filter is_popen (history (snd run)) = filter is_popen (history m0) /\
          fst (stop_server env (snd run)) = Ret tt /\
          exists r,
            history (snd (stop_server env (snd run)))
            = (history (snd run) ++ [EvRemoteShutdown server r])%list
      | Raise e =>
          exists r rest,
            history (snd run)
            = (history m0
                 ++ EvPing server (Raise e) :: EvPopen (spawn_args s0) r :: rest)%list
      end
  end.
Proof.
  cbv zeta. rewrite init_eq. cbv zeta.
  set (s0 := mkProxy package (select_python python) url port None None VNone None).
  set (server := mkServerProxy (address s0)).
  destruct (rejects (address s0)) as [e0|]; [repeat split|].
  destruct (ping_reply env (history m0) server) as [v|e].
  - cbn [fst snd self history]. repeat (split; [reflexivity|]).
    split; [rewrite filter_app; simpl; now rewrite app_nil_r|].
    set (m1 := mkMachine _ _).
    destruct (stop_server_spec env m1) as (Hr & _ & sd & Hsd & Hh).
    split; [exact Hr|].
    cbn in Hsd, Hh. destruct Hsd as [r ->]. exists r. exact Hh.
  - set (m1 := mkMachine s0 _).
    destruct (start_server_history env m1) as (r & rest & Hh).
    exists r, rest.
    destruct (start_server env m1) as [[server'|e'] m2]; cbn [fst snd history] in *;
      rewrite Hh; unfold m1; cbn [history self]; rewrite <- app_assoc; reflexivity.
Qed.

(** A server is already listening: the proxy reuses it and owns nothing. *)
Example init_reuses_running_server :
  let run := __init__ (env_reply VNone) (fun _ => "pythonw") xmlrpc_rejects
                      (Some "demo") None
                      default_url default_port (mkMachine proxy0 []) in
  fst run = Ret tt /\
  _process (self (snd run)) = None /\
  history (snd run) = [EvPing server0 (Ret VNone)].
Proof. repeat split. Qed.

(** Nothing is listening: the ping fails, then the process is spawned. *)
Example init_spawns_when_no_server :
  let run := __init__ (env_slow 7) (fun _ => "pythonw") xmlrpc_rejects
                      (Some "demo") None
                      default_url default_port (mkMachine proxy0 []) in
  fst run = Ret tt /\
  _process (self (snd run)) = Some (mkProcess 4242) /\
  firstn 2 (history (snd run))
  = [EvPing server0 (Raise refused);
     EvPopen ["pythonw"; "-m"; "compas.rpc.services.default"; "1753"]
             (Ret (mkProcess 4242))].
Proof. vm_compute. repeat split. Qed.

(** The url lacks its scheme: construction raises, and although every
    ping would have been answered here, nothing was pinged or spawned. *)
Example init_schemeless_address :
  __init__ (env_reply VNone) (fun _ => "pythonw") xmlrpc_rejects
           (Some "demo") None "127.0.0.1" default_port (mkMachine proxy0 [])
  = (Raise (Foreign "OSError" [VStr "unsupported XML-RPC protocol"]),
     mkMachine (mkProxy (Some "demo") "pythonw" "127.0.0.1" default_port
                        None None VNone None) []).
Proof. reflexivity. Qed.

End ProxyFacts.

(* ================================================================== *)
(** ** Properties of the network artist *)
(* ================================================================== *)

Module ArtistFacts.
Import Py Artist.
Local Open Scope py_scope.

Lemma key_eqb_refl (k : key) : key_eqb k k = true.
Proof.
  destruct k; simpl; [apply String.eqb_refl | apply Z.eqb_refl].
Qed.

Lemma key_eqb_eq (a b : key) : key_eqb a b = true -> a = b.
Proof.
  destruct a, b; simpl; try discriminate; intro H.
  - apply String.eqb_eq in H. now subst.
  - apply Z.eqb_eq in H. now subst.
Qed.

Lemma key_eqb_neq (a b : key) : a <> b -> key_eqb a b = false.
Proof.
  intro H. destruct (key_eqb a b) eqn:E; [|reflexivity].
  apply key_eqb_eq in E. contradiction.
Qed.

Lemma equals_str_neq (text : value) (s : string) :
  text <> VStr s -> equals_str text s = false.
Proof.
  destruct text; simpl; try reflexivity.
  intro H. destruct (String.eqb s0 s) eqn:E; [|reflexivity].
  apply String.eqb_eq in E. subst. contradiction.
Qed.

Section Host.

Variables point color colorspec bobject Collection world base : Type.
Variable create_collection : string -> Collection -> world -> outcome Collection * world.
Variable draw_points :
  list (point_spec point color) -> Collection -> world -> outcome (list bobject) * world.
Variable draw_lines :
  list (line_spec point color) -> Collection -> world -> outcome (list bobject) * world.
Variable draw_texts :
  list (text_spec point color) -> Collection -> world -> outcome (list bobject) * world.
Variable colordict : option colorspec -> list key -> color -> outcome (list (key * color)).
Variable read_nodes :
  Artist point color Collection base
  -> outcome (option (list key)) * Artist point color Collection base.
Variable read_edges :
  Artist point color Collection base
  -> outcome (option (list edge)) * Artist point color Collection base.
Variable assign_node_color assign_edge_color :
  option colorspec -> Artist point color Collection base
  -> outcome unit * Artist point color Collection base.
Variable read_node_color :
  Artist point color Collection base
  -> outcome (option (list (key * color))) * Artist point color Collection base.
Variable read_edge_color :
  Artist point color Collection base
  -> outcome (option (list (edge * color))) * Artist point color Collection base.


(** An empty selection is falsy, so [nodes or self.nodes] falls back to
    the stored selection exactly as an absent one does. *)
Lemma draw_nodes_empty_selection
  (m : machine point color Collection world base) (c : option colorspec) :
  draw_nodes create_collection draw_points read_nodes assign_node_color
             read_node_color (Some []) c m
  = draw_nodes create_collection draw_points read_nodes assign_node_color
               read_node_color None c m.
Proof. reflexivity. Qed.

Lemma draw_edges_empty_selection
  (m : machine point color Collection world base) (c : option colorspec) :
  draw_edges create_collection draw_lines read_edges assign_edge_color
             read_edge_color (Some []) c m
  = draw_edges create_collection draw_lines read_edges assign_edge_color
               read_edge_color None c m.
Proof. reflexivity. Qed.

(** The assignment [self.node_color = color] is the first step whatever
    the arguments are: when the setter raises, nothing else has happened. *)
Lemma draw_nodes_assignment_first
  (m : machine point color Collection world base)
  (nodes : option (list key)) (c : option colorspec) (e : exn)
  (a' : Artist point color Collection base) :
  assign_node_color c (self m) = (Raise e, a') ->
  draw_nodes create_collection draw_points read_nodes assign_node_color
             read_node_color nodes c m
  = (Raise e, mkMachine point color Collection world base a' (scene m)).
Proof.
  intro H. unfold draw_nodes, bind, accessor. now rewrite H.
Qed.

End Host.



(** Other falsy values take the same path; a truthy one is rejected. *)
Example draw_nodelabels_zero_text :
  fst (demo_draw_nodelabels (VInt 0) None demo_machine)
  = fst (demo_draw_nodelabels VNone None demo_machine) /\
  fst (demo_draw_nodelabels (VList []) None demo_machine)
  = fst (demo_draw_nodelabels VNone None demo_machine) /\
  fst (demo_draw_nodelabels (VInt 3) None demo_machine) = Raise NotImplementedError.
Proof. repeat split. Qed.

(** An explicitly empty selection draws the whole stored selection. *)
Example draw_nodes_empty_list_draws_all :
  fst (demo_draw_nodes (Some []) None demo_machine)
  = Ret [("net.node.7", VNone); ("net.node.8", VNone); ("net.node.9", VNone)].
Proof. reflexivity. Qed.

End ArtistFacts.

(* ================================================================== *)
(** ** Properties of the JSON text *)
(* ================================================================== *)

Module JsonFacts.
Import Py Json.
Local Open Scope char_scope.
Local Open Scope list_scope.

(** *** The two encoding loops *)

Lemma encode_list (l : list value) :
  encode (VList l) = "[" :: (encode_elements l ++ ["]"])%list.
Proof. reflexivity. Qed.

Lemma encode_dict (d : list (key * value)) :
  encode (VDict d) = "{" :: (encode_members d ++ ["}"])%list.
Proof. reflexivity. Qed.

(** *** Strings *)

Lemma parse_string_escape_char (c : ascii) (t : text) :
  parse_string (escape_char c ++ t) =
  match parse_string t with
  | Some (u, r) => Some (String c u, r)
  | None => None
  end.
Proof.
  destruct c as [[|] [|] [|] [|] [|] [|] [|] [|]]; reflexivity.
Qed.

Lemma parse_string_escape_string (s : string) (rest : text) :
  parse_string (escape_string s ++ quote :: rest) = Some (s, rest).
Proof.
  induction s as [|c s IH]; [reflexivity|].
  simpl. rewrite <- app_assoc, parse_string_escape_char, IH. reflexivity.
Qed.

(** *** Numbers *)

Lemma read_uint_digits (u : uint) (rest : text) :
  number_end rest = true ->
  read_uint (digits_of_uint u ++ rest) = (u, rest).
Proof.
  intro Hend.
  induction u as [|u IH|u IH|u IH|u IH|u IH|u IH|u IH|u IH|u IH|u IH];
    try (simpl; rewrite IH; reflexivity).
  simpl. destruct rest as [|c r]; [reflexivity|].
  simpl in *. unfold is_digit in Hend.
  destruct (digit_of c); [discriminate|reflexivity].
Qed.

Lemma nzhead_not_D0 (u v : uint) : nzhead u <> D0 v.
Proof.
  induction u; simpl; try discriminate. exact IHu.
Qed.

(** The decimal form of a positive number is not empty and does not start
    with a zero. *)
Lemma to_uint_head (p : positive) :
  match Pos.to_uint p with
  | Nil | D0 _ => False
  | _ => True
  end.
Proof.
  assert (Hnorm : unorm (Pos.to_uint p) = Pos.to_uint p).
  { pose proof (DecimalN.Unsigned.to_of (Pos.to_uint p)) as H.
    change (N.of_uint (Pos.to_uint p)) with (Pos.of_uint (Pos.to_uint p)) in H.
    rewrite DecimalPos.Unsigned.of_to in H. symmetry. exact H. }
  pose proof (DecimalPos.Unsigned.to_uint_nonzero p) as Hnz.
  destruct (Pos.to_uint p) as [|u|u|u|u|u|u|u|u|u|u] eqn:E; try exact I.
  - discriminate Hnorm.
  - unfold unorm in Hnorm.
    destruct (nzhead (D0 u)) eqn:En; try discriminate Hnorm.
    + apply Hnz. symmetry. exact Hnorm.
    + exact (nzhead_not_D0 _ _ En).
Qed.

Lemma parse_number_digits (negative : bool) (u : uint) (rest : text) :
  plain_digits u = true ->
  number_end rest = true ->
  parse_number ((if negative then ["-"] else []) ++ digits_of_uint u ++ rest)
  = Some (VInt (if negative then - Z.of_uint u else Z.of_uint u)%Z, rest).
Proof.
  intros Hu Hend. unfold parse_number.
  assert (Hsplit :
    split_sign ((if negative then ["-"] else []) ++ digits_of_uint u ++ rest)
    = (negative, digits_of_uint u ++ rest)).
  { destruct negative; [reflexivity|].
    destruct u; try discriminate Hu; reflexivity. }
  rewrite Hsplit, (read_uint_digits u rest Hend), Hu.
  assert (Hfloat : starts_float rest = false).
  { destruct rest as [|c r]; [reflexivity|]. simpl in Hend.
    apply andb_true_iff in Hend. destruct Hend as [_ H].
    now apply negb_true_iff in H. }
  rewrite Hfloat. reflexivity.
Qed.

Lemma plain_digits_to_uint (p : positive) : plain_digits (Pos.to_uint p) = true.
Proof.
  pose proof (to_uint_head p) as H.
  destruct (Pos.to_uint p); try contradiction; reflexivity.
Qed.

Lemma parse_number_int (z : Z) (rest : text) :
  number_end rest = true ->
  parse_number (encode_int z ++ rest) = Some (VInt z, rest).
Proof.
  intro Hend.
  destruct z as [|p|p].
  - exact (parse_number_digits false (D0 Nil) rest eq_refl Hend).
  - change (encode_int (Z.pos p)) with (digits_of_uint (Pos.to_uint p)).
    pose proof (parse_number_digits false (Pos.to_uint p) rest
                  (plain_digits_to_uint p) Hend) as H.
    cbn [List.app] in H. rewrite H.
    unfold Z.of_uint. rewrite DecimalPos.Unsigned.of_to. reflexivity.
  - change (encode_int (Z.neg p)) with ("-" :: digits_of_uint (Pos.to_uint p)).
    pose proof (parse_number_digits true (Pos.to_uint p) rest
                  (plain_digits_to_uint p) Hend) as H.
    cbn [List.app] in H. cbn [List.app]. rewrite H.
    unfold Z.of_uint. rewrite DecimalPos.Unsigned.of_to. reflexivity.
Qed.

(** *** Where a value starts *)

Lemma encode_int_start (z : Z) (rest : text) :
  number_start (encode_int z ++ rest) = true.
Proof.
  destruct z as [|p|p]; try reflexivity.
  change (encode_int (Z.pos p)) with (digits_of_uint (Pos.to_uint p)).
  pose proof (to_uint_head p) as H.
  destruct (Pos.to_uint p); try contradiction; reflexivity.
Qed.

(** A value never starts with white space or a closing bracket. *)
Lemma encode_head (v : value) :
  exists c t,
    encode v = c :: t /\
    is_ws c = false /\ (c =? "]") = false /\ (c =? "}") = false.
Proof.
  destruct v as [|b|z|s|l|d].
  - do 2 eexists. repeat split.
  - destruct b; do 2 eexists; repeat split.
  - destruct z as [|p|p].
    + do 2 eexists. repeat split.
    + change (encode (VInt (Z.pos p))) with (digits_of_uint (Pos.to_uint p)).
      pose proof (to_uint_head p) as H.
      destruct (Pos.to_uint p); try contradiction; do 2 eexists; repeat split.
    + do 2 eexists. repeat split.
  - do 2 eexists. repeat split.
  - do 2 eexists. repeat split.
  - do 2 eexists. repeat split.
Qed.

Lemma skip_ws_head (c : ascii) (t : text) :
  is_ws c = false -> skip_ws (c :: t) = c :: t.
Proof. intro H. simpl. now rewrite H. Qed.

(** *** The parser, one step at a time *)

Lemma parse_value_number (fuel : nat) (s : text) :
  number_start s = true -> parse_value (S fuel) s = parse_number s.
Proof.
  destruct s as [|c r]; [discriminate|].
  destruct c as [[|] [|] [|] [|] [|] [|] [|] [|]]; try discriminate; reflexivity.
Qed.

Lemma parse_value_quote (fuel : nat) (r : text) :
  parse_value (S fuel) (quote :: r) =
  match parse_string r with
  | Some (t, r') => Some (VStr t, r')
  | None => None
  end.
Proof. reflexivity. Qed.

Lemma parse_value_bracket (fuel : nat) (r : text) :
  parse_value (S fuel) ("[" :: r) =
  match skip_ws r with
  | [] => None
  | c' :: r' =>
      if c' =? "]" then Some (VList [], r')
      else
        match parse_elements fuel r with
        | Some (l, r'') => Some (VList l, r'')
        | None => None
        end
  end.
Proof. reflexivity. Qed.

Lemma parse_value_brace (fuel : nat) (r : text) :
  parse_value (S fuel) ("{" :: r) =
  match skip_ws r with
  | [] => None
  | c' :: r' =>
      if c' =? "}" then Some (VDict [], r')
      else
        match parse_members fuel r with
        | Some (d, r'') => Some (VDict (dict_of_pairs d), r'')
        | None => None
        end
  end.
Proof. reflexivity. Qed.

Lemma parse_elements_S (fuel : nat) (s : text) :
  parse_elements (S fuel) s =
  match parse_value fuel s with
  | None => None
  | Some (v, r) =>
      match skip_ws r with
      | [] => None
      | c :: r' =>
          if c =? "," then
            match parse_elements fuel r' with
            | Some (l, r'') => Some (v :: l, r'')
            | None => None
            end
          else if c =? "]" then Some ([v], r')
          else None
      end
  end.
Proof. reflexivity. Qed.

Lemma parse_members_S (fuel : nat) (r : text) :
  parse_members (S fuel) (quote :: r) =
  match parse_string r with
  | None => None
  | Some (k, r1) =>
      match skip_ws r1 with
      | [] => None
      | c1 :: r2 =>
          if c1 =? ":" then
            match parse_value fuel r2 with
            | None => None
            | Some (v, r3) =>
                match skip_ws r3 with
                | [] => None
                | c3 :: r4 =>
                    if c3 =? "," then
                      match parse_members fuel r4 with
                      | Some (d, r5) => Some ((KStr k, v) :: d, r5)
                      | None => None
                      end
                    else if c3 =? "}" then Some ([(KStr k, v)], r4)
                    else None
                end
            end
          else None
      end
  end.
Proof. reflexivity. Qed.

Lemma parse_value_space (fuel : nat) (s : text) :
  parse_value fuel (" " :: s) = parse_value fuel s.
Proof. destruct fuel; reflexivity. Qed.

Lemma parse_elements_space (fuel : nat) (s : text) :
  parse_elements fuel (" " :: s) = parse_elements fuel s.
Proof.
  destruct fuel; [reflexivity|].
  now rewrite !parse_elements_S, parse_value_space.
Qed.

Lemma parse_members_space (fuel : nat) (s : text) :
  parse_members fuel (" " :: s) = parse_members fuel s.
Proof. destruct fuel; reflexivity. Qed.

(** *** Dictionaries without repeated keys *)

Lemma dict_set_fresh {A : Type} (acc : list (key * A)) (k : key) (v : A) :
  existsb (fun a => key_eqb a k) (map fst acc) = false ->
  dict_set acc k v = acc ++ [(k, v)].
Proof.
  induction acc as [|[a va] acc IH]; simpl; [reflexivity|].
  intro H. apply orb_false_iff in H. destruct H as [Ha Hacc].
  rewrite Ha, (IH Hacc). reflexivity.
Qed.

Lemma distinct_keys_fresh (ks : list key) (k : key) (later : list key) :
  distinct_keys (ks ++ k :: later) = true ->
  existsb (fun a => key_eqb a k) ks = false.
Proof.
  induction ks as [|a ks IH]; simpl; [reflexivity|].
  intro H. apply andb_true_iff in H. destruct H as [Ha Hks].
  apply negb_true_iff in Ha. rewrite existsb_app in Ha.
  apply orb_false_iff in Ha. destruct Ha as [_ Ha]. simpl in Ha.
  apply orb_false_iff in Ha. destruct Ha as [Ha _].
  rewrite Ha, (IH Hks). reflexivity.
Qed.

Lemma fold_dict_set_distinct {A : Type} (l acc : list (key * A)) :
  distinct_keys (map fst acc ++ map fst l) = true ->
  fold_left (fun d kv => dict_set d (fst kv) (snd kv)) l acc = acc ++ l.
Proof.
  revert acc. induction l as [|[k v] l IH]; intros acc H; simpl.
  - now rewrite app_nil_r.
  - simpl in H.
    rewrite (dict_set_fresh acc k v (distinct_keys_fresh _ _ _ H)).
    rewrite IH.
    + now rewrite <- app_assoc.
    + rewrite map_app, <- app_assoc. exact H.
Qed.

Lemma dict_of_pairs_distinct {A : Type} (l : list (key * A)) :
  distinct_keys (map fst l) = true -> dict_of_pairs l = l.
Proof.
  intro H. unfold dict_of_pairs. now rewrite fold_dict_set_distinct.
Qed.

(** *** What [json_native] says about a list and about a dict *)

Lemma json_native_list (l : list value) :
  json_native (VList l) = forallb json_native l.
Proof. reflexivity. Qed.

Lemma json_native_dict (d : list (key * value)) :
  json_native (VDict d) =
  forallb is_str_key (map fst d) && distinct_keys (map fst d) &&
  forallb json_native (map snd d).
Proof.
  simpl. f_equal.
  induction d as [|[k x] d IH]; [reflexivity|].
  simpl. now rewrite IH.
Qed.

(** *** Reading back what was written *)

Lemma reads_value_S (fuel : nat) :
  reads_elements fuel -> reads_members fuel -> reads_value (S fuel).
Proof.
  intros He Hm v rest Hnative Hend Hlen.
  destruct v as [|b|z|s|l|d].
  - reflexivity.
  - destruct b; reflexivity.
  - rewrite parse_value_number by apply encode_int_start.
    now apply parse_number_int.
  - change (encode (VStr s)) with (quote :: (escape_string s ++ [quote])).
    cbn [List.app]. rewrite parse_value_quote, <- app_assoc. cbn [List.app].
    now rewrite parse_string_escape_string.
  - rewrite encode_list in *. cbn [List.app]. rewrite parse_value_bracket.
    destruct l as [|x l]; [reflexivity|].
    rewrite <- app_assoc. cbn [List.app].
    rewrite (He (x :: l) rest); [| discriminate | exact Hnative |
      cbn [List.length] in Hlen; rewrite length_app in Hlen;
      cbn [List.length] in Hlen; lia].
    destruct (encode_head x) as (c & t & Hx & Hws & Hb & _).
    cbn [encode_elements]. rewrite Hx. cbn [List.app].
    rewrite (skip_ws_head _ _ Hws), Hb. reflexivity.
  - rewrite encode_dict in *. cbn [List.app]. rewrite parse_value_brace.
    destruct d as [|[k x] d]; [reflexivity|].
    rewrite json_native_dict in Hnative.
    apply andb_true_iff in Hnative. destruct Hnative as [Hnative Hvals].
    apply andb_true_iff in Hnative. destruct Hnative as [Hkeys Hdistinct].
    rewrite <- app_assoc. cbn [List.app].
    rewrite (Hm ((k, x) :: d) rest); [| discriminate | exact Hkeys | exact Hvals |
      cbn [List.length] in Hlen; rewrite length_app in Hlen;
      cbn [List.length] in Hlen; lia].
    rewrite (dict_of_pairs_distinct _ Hdistinct).
    reflexivity.
Qed.

Lemma encode_elements_cons (x : value) (l : list value) (rest : text) :
  encode_elements (x :: l) ++ "]" :: rest
  = encode x ++ continuation encode_elements "]" l rest.
Proof.
  cbn [encode_elements]. rewrite <- app_assoc. destruct l; reflexivity.
Qed.

Lemma encode_members_cons (k : key) (x : value) (d : list (key * value))
  (rest : text) :
  encode_members ((k, x) :: d) ++ "}" :: rest
  = encode_key k ++ ":" :: " " :: encode x ++ continuation encode_members "}" d rest.
Proof.
  cbn [encode_members]. rewrite <- app_assoc. cbn [List.app].
  rewrite <- app_assoc. destruct d; reflexivity.
Qed.

Lemma reads_elements_S (fuel : nat) :
  reads_value fuel -> reads_elements fuel -> reads_elements (S fuel).
Proof.
  intros Hv He l rest Hne Hnative Hlen.
  destruct l as [|x l]; [contradiction|].
  cbn [forallb] in Hnative. apply andb_true_iff in Hnative.
  destruct Hnative as [Hx Hl].
  rewrite encode_elements_cons, parse_elements_S.
  cbn [encode_elements] in Hlen. rewrite length_app in Hlen.
  rewrite (Hv x (continuation encode_elements "]" l rest) Hx);
    [| destruct l; reflexivity | lia].
  destruct l as [|y l]; [reflexivity|].
  cbn [continuation skip_ws is_ws Ascii.eqb Bool.eqb orb].
  cbn [Ascii.eqb Bool.eqb].
  rewrite parse_elements_space, He; [reflexivity | discriminate | exact Hl |].
  cbn [List.length] in Hlen. lia.
Qed.

Lemma reads_members_S (fuel : nat) :
  reads_value fuel -> reads_members fuel -> reads_members (S fuel).
Proof.
  intros Hv Hm d rest Hne Hkeys Hnative Hlen.
  destruct d as [|[k x] d]; [contradiction|].
  cbn [map fst snd forallb] in Hkeys, Hnative.
  apply andb_true_iff in Hkeys. destruct Hkeys as [Hk Hkeys].
  apply andb_true_iff in Hnative. destruct Hnative as [Hx Hd].
  destruct k as [k|z]; [|discriminate Hk].
  rewrite encode_members_cons.
  cbn [encode_members] in Hlen. rewrite length_app in Hlen.
  cbn [List.length] in Hlen. rewrite length_app in Hlen.
  change (encode_key (KStr k)) with (quote :: (escape_string k ++ [quote])).
  cbn [List.app]. rewrite parse_members_S, <- app_assoc. cbn [List.app].
  rewrite parse_string_escape_string.
  cbn [skip_ws is_ws Ascii.eqb Bool.eqb orb].
  rewrite parse_value_space.
  rewrite (Hv x (continuation encode_members "}" d rest) Hx);
    [| destruct d; reflexivity | lia].
  destruct d as [|[k' y] d]; [reflexivity|].
  cbn [continuation skip_ws is_ws Ascii.eqb Bool.eqb orb].
  rewrite parse_members_space, Hm; [reflexivity | discriminate | exact Hkeys | exact Hd |].
  cbn [List.length] in Hlen. lia.
Qed.

Lemma reads_all (fuel : nat) :
  reads_value fuel /\ reads_elements fuel /\ reads_members fuel.
Proof.
  induction fuel as [|fuel (Hv & He & Hm)].
  - split; [|split].
    + intros v rest _ _ Hlen. exfalso.
      destruct (encode_head v) as (c & t & Hx & _). rewrite Hx in Hlen.
      simpl in Hlen. lia.
    + intros l rest _ _ Hlen. lia.
    + intros d rest _ _ _ Hlen. lia.
  - split; [|split].
    + now apply reads_value_S.
    + now apply reads_elements_S.
    + now apply reads_members_S.
Qed.

(** Reading back the text of a native value gives the value. *)
Lemma loads_dumps (v : value) :
  json_native v = true ->
  exists s, dumps v = Ret s /\ loads (VStr s) = Ret v.
Proof.
  intro Hnative. eexists. split; [reflexivity|].
  unfold loads, chars. rewrite list_ascii_of_string_of_list_ascii.
  pose proof (proj1 (reads_all (S (List.length (encode v)))) v [] Hnative eq_refl) as H.
  rewrite app_nil_r in H. rewrite H by lia. reflexivity.
Qed.

(** *** The call envelope *)

Local Close Scope char_scope.

Lemma distinct_keys_NoDup (names : list string) :
  NoDup names -> distinct_keys (map KStr names) = true.
Proof.
  induction 1 as [|n ns Hn _ IH]; [reflexivity|].
  cbn [map distinct_keys]. rewrite IH, andb_true_r.
  apply negb_true_iff.
  destruct (existsb (key_eqb (KStr n)) (map KStr ns)) eqn:E; [|reflexivity].
  apply existsb_exists in E. destruct E as (k & Hk & Heq).
  apply in_map_iff in Hk. destruct Hk as (m & <- & Hm).
  simpl in Heq. apply String.eqb_eq in Heq. subst m. contradiction.
Qed.

Lemma kwargs_native (kwargs : list (string * value)) :
  forallb json_native (map snd kwargs) = true ->
  NoDup (map fst kwargs) ->
  json_native (VDict (map (fun kv => (KStr (fst kv), snd kv)) kwargs)) = true.
Proof.
  intros Hkw Hnames. rewrite json_native_dict.
  apply andb_true_iff. split; [apply andb_true_iff; split|].
  - apply forallb_forall. intros k Hk.
    apply in_map_iff in Hk. destruct Hk as ([k' x] & <- & Hin).
    apply in_map_iff in Hin. destruct Hin as (kv & [= <- <-] & _). reflexivity.
  - rewrite map_map. cbn [fst].
    rewrite <- (map_map fst KStr). now apply distinct_keys_NoDup.
  - rewrite map_map. exact Hkw.
Qed.

(** The call envelope of [proxy] is native when its arguments are. *)
Lemma idict_native (args : list value) (kwargs : list (string * value)) :
  forallb json_native args = true ->
  forallb json_native (map snd kwargs) = true ->
  NoDup (map fst kwargs) ->
  json_native (Proxy.idict args kwargs) = true.
Proof.
  intros Hargs Hkw Hnames. unfold Proxy.idict.
  rewrite json_native_dict. cbn [map fst snd forallb is_str_key andb].
  rewrite json_native_list, Hargs, (kwargs_native kwargs Hkw Hnames).
  reflexivity.
Qed.



(** The text of that envelope. *)
Example envelope_text :
  encode (Proxy.idict [VInt 2; VInt (-3); VList [VStr "xyz"; VNone]]
                      [("tol", VDict [(KStr "abs", VBool true)])])
  = (chars "{" ++ quote :: chars "args" ++ quote
       :: chars ": [2, -3, [" ++ quote :: chars "xyz" ++ quote
       :: chars ", null]], " ++ quote :: chars "kwargs" ++ quote
       :: chars ": {" ++ quote :: chars "tol" ++ quote
       :: chars ": {" ++ quote :: chars "abs" ++ quote
       :: chars ": true}}}")%list.
Proof. reflexivity. Qed.


(** Why the keys must be strings: an integer key is written as a string
    and comes back as one. *)
Example int_key_comes_back_as_string :
  json_native (VDict [(KInt 1, VStr "a")]) = false /\
  exists s, dumps (VDict [(KInt 1, VStr "a")]) = Ret s /\
            loads (VStr s) = Ret (VDict [(KStr "1", VStr "a")]).
Proof. split; [reflexivity|]. eexists. split; reflexivity. Qed.

(** White space, escapes, a repeated member name and a malformed number,
    read as [json.loads] reads them. *)
Example loads_samples :
  loads (VStr " [1 ,  2,[ ] ] ") = Ret (VList [VInt 1; VInt 2; VList []]) /\
  loads (VStr "[-0, 10]") = Ret (VList [VInt 0; VInt 10]) /\
  loads (VStr "[01]") = Raise (decode_error "Expecting value") /\
  loads (VStr "[1] 2") = Raise (decode_error "Extra data") /\
  loads (VInt 1) = Raise (TypeError "the JSON object must be str, bytes or bytearray").
Proof. repeat split. Qed.

(** The spec's scenario with the real text on the wire: the service
    answers [demo.add(2, 3)] with the JSON text of a reply carrying 5. *)
Example proxy_add_through_json :
  let reply := string_of_list_ascii (encode Proxy.reply_ok) in
  let run := Proxy.proxy (Proxy.env_reply (VStr reply)) dumps loads
                         [VInt 2; VInt 3] [] (Proxy.mkMachine Proxy.proxy_owning []) in
  fst run = Ret (VInt 5) /\
  Proxy._profile (Proxy.self (snd run)) = VStr "0.01s".
Proof. vm_compute. split; reflexivity. Qed.

End JsonFacts.

(* ================================================================== *)
(** ** More about the proxy: dispatch, scopes, failures *)
(* ================================================================== *)

Module ProxyMore.
Import Py Proxy.
Local Open Scope py_scope.

Lemma filter_teardown_failed_rounds (server : ServerProxy) (es : list exn) :
  filter is_teardown (failed_rounds server es) = [].
Proof. induction es as [|e es IH]; [reflexivity|exact IH]. Qed.

(** X1.  A proxy used in a [with] block: the block's result, or the
    exception it raised, is what the statement gives, and in both cases
    [stop_server] has run on the state the block left. *)
Theorem with_stops_server (env : Env) (A : Type) (body : M A) (m : machine) :
  with_ env body m
  = (fst (body m), snd (stop_server env (snd (body m)))).
Proof.
  unfold with_, __enter__, __exit__, bind, ret, attempt, lift.
  destruct (body m) as [r m1]. cbn [fst snd].
  destruct (ProxyFacts.stop_server_spec env m1) as (Hr & _).
  destruct (stop_server env m1) as [u m2]. cbn [fst snd] in *. subst u.
  reflexivity.
Qed.

(** A block that fails half-way, on a proxy that owns its process. *)
Example with_block_raising :
  with_ (env_reply (VStr "OK")) (raise (Foreign "ValueError" []))
        (mkMachine proxy_owning [])
  = (Raise (Foreign "ValueError" []) : outcome unit,
     mkMachine proxy_owning
       [EvRemoteShutdown server0 (Ret VNone);
        EvTerminate (mkProcess 4242) (Ret tt);
        EvKill (mkProcess 4242) (Ret tt)]).
Proof. reflexivity. Qed.

(** What [start_server] does not do, and what it keeps. *)
Lemma start_server_effects (env : Env) (m : machine) :
  filter is_teardown (history (snd (start_server env m)))
  = filter is_teardown (history m) /\
  (forall p,
     popen_reply env (history m) (spawn_args (self m)) = Ret p ->
     _process (self (snd (start_server env m))) = Some p).
Proof.
  rewrite ProxyFacts.start_server_eq.
  destruct (popen_reply env (history m) (spawn_args (self m))) as [p|e].
  - cbv zeta.
    set (server := mkServerProxy (address (self m))). set (m1 := mkMachine _ _).
    destruct (ProxyFacts.poll_spec env server 100 m1) as [Hself [es Hes]].
    assert (Hh : filter is_teardown (history (snd (poll env server 100 m1)))
                 = filter is_teardown (history m)).
    { destruct Hes as [(_ & _ & ->) | (v & _ & _ & ->)]; unfold m1; cbn [history];
        rewrite !filter_app, filter_teardown_failed_rounds; cbn;
        now rewrite ?app_nil_r. }
    destruct (poll env server 100 m1) as [[[|]|e] m2]; cbn [fst snd] in *;
      (split; [exact Hh|]); intros q [= <-]; rewrite Hself; reflexivity.
  - cbn [snd emit history self]. split.
    + rewrite filter_app. cbn. now rewrite app_nil_r.
    + intros q [=].
Qed.

(** X2.  [start_server] never takes anything down.  Whatever the outcome,
    it sends no shutdown request and neither terminates nor kills a
    process; and once the spawn has succeeded the proxy keeps the handle,
    also when the 100 pings have failed and [RPCServerError] is raised:
    the process that was started is left running. *)
Theorem start_server_no_teardown (env : Env) (m : machine) :
  let m' := snd (start_server env m) in
  filter is_teardown (history m') = filter is_teardown (history m) /\
  (forall p,
     popen_reply env (history m) (spawn_args (self m)) = Ret p ->
     _process (self m') = Some p).
Proof. exact (start_server_effects env m). Qed.

(** The target never answers: the error is raised, the process stays. *)
Example start_server_leaves_process :
  let run := start_server env_dead (mkMachine proxy0 []) in
  fst run = Raise (RPCServerError [VStr "The server is no available."]) /\
  _process (self (snd run)) = Some (mkProcess 4242) /\
  filter is_teardown (history (snd run)) = [].
Proof. vm_compute. repeat split. Qed.

(** X3.  What [Proxy(...)] leaves behind.  When construction returns,
    [ServerProxy] had taken the address, the proxy is connected to it, no
    remote function is bound, no profile is recorded, and it owns a process
    exactly when the first ping found no server.  When construction raises,
    either [ServerProxy] rejected the address, and then nothing was pinged
    or spawned, or the first ping had failed and no server is stored. *)
Theorem init_outcomes (env : Env) (select_python : option string -> string)
  (rejects : string -> option exn)
  (package python : option string) (url : string) (port : Z) (m0 : machine) :
  let server := mkServerProxy (url ++ ":" ++ str_of_Z port) in
  let run := __init__ env select_python rejects package python url port m0 in
  match fst run with
  | Ret _ =>
      rejects (url ++ ":" ++ str_of_Z port) = None /\
      _server (self (snd run)) = Some server /\
      _package (self (snd run)) = package /\
      _function (self (snd run)) = None /\
      _profile (self (snd run)) = VNone /\
      (_process (self (snd run)) = None <->
       exists v, ping_reply env (history m0) server = Ret v)
  | Raise e =>
      (rejects (url ++ ":" ++ str_of_Z port) = Some e /\
       history (snd run) = history m0) \/
      (rejects (url ++ ":" ++ str_of_Z port) = None /\
       _server (self (snd run)) = None /\
       exists e', ping_reply env (history m0) server = Raise e')
  end.
Proof.
  cbv zeta. rewrite ProxyFacts.init_eq. cbv zeta.
  set (s0 := mkProxy package (select_python python) url port None None VNone None).
  change (address s0) with (url ++ ":" ++ str_of_Z port).
  set (server := mkServerProxy (url ++ ":" ++ str_of_Z port)).
  destruct (rejects (url ++ ":" ++ str_of_Z port)) as [e0|].
  { cbn [fst snd history]. left. split; reflexivity. }
  destruct (ping_reply env (history m0) server) as [v|e].
  - cbn [fst snd self]. repeat (split; [reflexivity|]).
    split; [intros _; exists v; reflexivity | reflexivity].
  - set (m1 := mkMachine s0 _).
    pose proof (start_server_effects env m1) as [_ Hkeep].
    rewrite ProxyFacts.start_server_eq in *.
    change (spawn_args (self m1)) with (spawn_args s0) in *.
    destruct (popen_reply env (history m1) (spawn_args s0)) as [p|e1].
    + specialize (Hkeep p eq_refl). cbv zeta in *.
      change (address (self m1)) with (url ++ ":" ++ str_of_Z port) in *.
      fold server in Hkeep |- *.
      set (m2 := mkMachine (set_process (Some p) (self m1)) _) in *.
      destruct (ProxyFacts.poll_spec env server 100 m2) as [Hself _].
      destruct (poll env server 100 m2) as [[[|]|e2] m3]; cbn [fst snd] in *.
      * rewrite Hself. cbn. repeat (split; [reflexivity|]).
        split; [discriminate | intros [v [=]]].
      * right. rewrite Hself. cbn. repeat (split; [reflexivity|]).
        exists e. reflexivity.
      * right. rewrite Hself. cbn. repeat (split; [reflexivity|]).
        exists e. reflexivity.
    + right. cbn. repeat (split; [reflexivity|]). exists e. reflexivity.
Qed.

(** X4.  [stop_server] does not forget the process: called [n] times on a
    proxy that owns a process, it never raises, and it terminates and
    kills that same process [n] times. *)
Theorem stop_server_times_repeats (env : Env) (n : nat) (p : Process) (m : machine) :
  _process (self m) = Some p ->
  let m' := snd (stop_server_times env n m) in
  fst (stop_server_times env n m) = Ret tt /\
  self m' = self m /\
  List.length (filter is_terminate (history m'))
  = List.length (filter is_terminate (history m)) + n /\
  List.length (filter is_kill (history m'))
  = List.length (filter is_kill (history m)) + n.
Proof.
  revert m. induction n as [|n IH]; intros m Hp; cbv zeta.
  - cbn. repeat split; lia.
  - cbn [stop_server_times]. unfold bind.
    destruct (ProxyFacts.stop_server_spec env m) as (Hr & Hs & sd & Hsd & Hh).
    rewrite Hp in Hh. destruct Hh as (r1 & r2 & Hh).
    destruct (stop_server env m) as [u m1]. cbn [fst snd] in *. subst u.
    assert (Hp1 : _process (self m1) = Some p) by (rewrite Hs; exact Hp).
    destruct (IH m1 Hp1) as (Hr' & Hs' & Ht & Hk).
    split; [exact Hr'|]. split; [congruence|].
    assert (Hsdt : filter is_terminate sd = [] /\ filter is_kill sd = []).
    { destruct (_server (self m)); [destruct Hsd as [r ->]|subst sd];
        split; reflexivity. }
    destruct Hsdt as [Hsdt Hsdk].
    rewrite Ht, Hk, Hh, !filter_app, Hsdt, Hsdk, !length_app. cbn. lia.
Qed.

Lemma stop_server_times_repeats_witness :
  List.length
    (filter is_kill
       (history (snd (stop_server_times env_dead 3 (mkMachine proxy_owning [])))))
  = 3.
Proof.
  exact (proj2 (proj2 (proj2
           (stop_server_times_repeats env_dead 3 (mkProcess 4242)
              (mkMachine proxy_owning []) eq_refl)))).
Defined.

Section Calls.

Variable env : Env.
Variable json_dumps : value -> outcome string.
Variable json_loads : value -> outcome value.

(** Whatever [proxy] does, the history only grows, and [proxy] starts by
    the call when a function is bound. *)
Lemma proxy_history_bound (args : list value) (kwargs : list (string * value))
  (istring : string) (f : Method) (m : machine) :
  json_dumps (idict args kwargs) = Ret istring ->
  _function (self m) = Some f ->
  exists rest,
    history (snd (proxy env json_dumps json_loads args kwargs m))
    = (history m
         ++ EvCall f istring (call_reply env (history m) f istring) :: rest)%list.
Proof.
  intros Hdumps Hf.
  rewrite (ProxyFacts.proxy_eq env json_dumps json_loads args kwargs istring m Hdumps).
  rewrite Hf, ProxyFacts.call_function_bound.
  set (r := call_reply env (history m) f istring).
  set (m1 := emit (EvCall f istring r) m).
  assert (Hm1 : history m1 = (history m ++ [EvCall f istring r])%list) by reflexivity.
  destruct r as [ostring|e].
  - exists [].
    destruct (truthy ostring); cbn [negb]; [|exact Hm1].
    destruct (json_loads ostring) as [result|]; [|exact Hm1].
    destruct (subscript result "error") as [err|]; [|exact Hm1].
    destruct (truthy err); [exact Hm1|].
    destruct (subscript result "profile") as [profile|]; exact Hm1.
  - destruct (ProxyFacts.stop_server_spec env m1) as (_ & _ & sd & _ & Hh).
    destruct (stop_server env m1) as [[u|e'] m2]; cbn [fst snd] in *;
      destruct (_process (self m1)) as [p|].
    + destruct Hh as (r1 & r2 & Hh). eexists. rewrite Hh, Hm1, <- app_assoc.
      reflexivity.
    + eexists. rewrite Hh, Hm1, <- app_assoc. reflexivity.
    + destruct Hh as (r1 & r2 & Hh). eexists. rewrite Hh, Hm1, <- app_assoc.
      reflexivity.
    + eexists. rewrite Hh, Hm1, <- app_assoc. reflexivity.
Qed.


(** X6.  Arguments that cannot be written as JSON: [proxy] raises what
    [json.dumps] raised; nothing is sent, the server is not stopped and the
    proxy is as before. *)
Theorem proxy_unserialisable (args : list value) (kwargs : list (string * value))
  (e : exn) (m : machine) :
  json_dumps (idict args kwargs) = Raise e ->
  proxy env json_dumps json_loads args kwargs m = (Raise e, m).
Proof.
  intro Hdumps. unfold proxy, bind, lift. rewrite Hdumps. reflexivity.
Qed.

(** X7.  A reply that is not empty but cannot be used: when [json.loads]
    raises, when the decoded reply is not a dict, or when it has no
    [error] member, [proxy] raises that exception (a [TypeError] or
    [KeyError('error')] in the last two cases).  Unlike a transport failure
    this does not stop the server: the only effect is the call, and the
    proxy object is unchanged. *)
Theorem proxy_unusable_reply (args : list value) (kwargs : list (string * value))
  (istring : string) (f : Method) (ostring : value) (m : machine) :
  json_dumps (idict args kwargs) = Ret istring ->
  _function (self m) = Some f ->
  call_reply env (history m) f istring = Ret ostring ->
  truthy ostring = true ->
  let m1 := emit (EvCall f istring (Ret ostring)) m in
  let run := proxy env json_dumps json_loads args kwargs m in
  (forall e, json_loads ostring = Raise e -> run = (Raise e, m1)) /\
  (forall result,
     json_loads ostring = Ret result ->
     (forall d, result <> VDict d) ->
     exists msg, run = (Raise (TypeError msg), m1)) /\
  (forall d,
     json_loads ostring = Ret (VDict d) ->
     dict_get d (KStr "error") = None ->
     run = (Raise (KeyError (KStr "error")), m1)).
Proof.
  intros Hdumps Hf Hreply Htruthy. cbv zeta.
  rewrite (ProxyFacts.proxy_eq env json_dumps json_loads args kwargs istring m Hdumps).
  rewrite Hf, ProxyFacts.call_function_bound, Hreply, Htruthy. cbn [negb].
  split; [|split].
  - intros e ->. reflexivity.
  - intros result -> Hnot.
    destruct result as [|b|z|s|l|d]; try (eexists; reflexivity).
    exfalso. exact (Hnot d eq_refl).
  - intros d -> Hmissing. cbn [subscript]. rewrite Hmissing. reflexivity.
Qed.


(** X9.  [proxy] called while no remote function is bound: calling [None]
    is a [TypeError] inside the guarded step, so the proxy stops the server
    (shutdown request, terminate and kill of an owned process) and then
    raises the [TypeError]; no remote call is made. *)
Theorem proxy_unbound (args : list value) (kwargs : list (string * value))
  (istring : string) (m : machine) :
  json_dumps (idict args kwargs) = Ret istring ->
  _function (self m) = None ->
  let run := proxy env json_dumps json_loads args kwargs m in
  run = (Raise (TypeError "'NoneType' object is not callable"),
         snd (stop_server env m)) /\
  filter is_call (history (snd run)) = filter is_call (history m).
Proof.
  intros Hdumps Hf. cbv zeta.
  rewrite (ProxyFacts.proxy_eq env json_dumps json_loads args kwargs istring m Hdumps).
  rewrite Hf. cbn [call_function]. unfold raise. cbv beta iota.
  destruct (ProxyFacts.stop_server_spec env m) as (Hr & _ & sd & Hsd & Hh).
  destruct (stop_server env m) as [r m2]. cbn [fst snd] in *. subst r.
  split; [reflexivity|]. cbn [snd].
  assert (Hsd' : filter is_call sd = []).
  { destruct (_server (self m)); [destruct Hsd as [r ->]|subst sd]; reflexivity. }
  destruct (_process (self m)) as [p|].
  - destruct Hh as (r1 & r2 & ->).
    rewrite !filter_app, Hsd'. cbn. now rewrite app_nil_r.
  - rewrite Hh, filter_app, Hsd'. now rewrite app_nil_r.
Qed.

End Calls.


(** Without a package, and with an empty one, the name is sent as it is. *)
Example qualified_names :
  qualified (Some "compas.numerical") "fd_numpy" = "compas.numerical.fd_numpy" /\
  qualified None "fd_numpy" = "fd_numpy" /\
  qualified (Some "") "fd_numpy" = "fd_numpy".
Proof. repeat split. Qed.

Lemma proxy_unserialisable_witness :
  proxy env_dead (fun _ => Raise (TypeError "Object is not JSON serializable"))
        (table_loads []) [VInt 2] [] (mkMachine proxy_owning [])
  = (Raise (TypeError "Object is not JSON serializable"), mkMachine proxy_owning []).
Proof.
  exact (proxy_unserialisable env_dead _ (table_loads []) [VInt 2] [] _
           (mkMachine proxy_owning []) eq_refl).
Defined.

(** The reply is text, but not the text of anything known. *)
Lemma proxy_unusable_reply_witness :
  proxy (env_reply (VStr "<html>")) (const_dumps "{}") (table_loads replies)
        [VInt 2; VInt 3] [] (mkMachine proxy_owning [])
  = (Raise (Foreign "JSONDecodeError" []),
     mkMachine proxy_owning
       [EvCall (mkMethod server0 "demo.add") "{}" (Ret (VStr "<html>"))]).
Proof.
  exact (proj1 (proxy_unusable_reply (env_reply (VStr "<html>")) (const_dumps "{}")
                  (table_loads replies) [VInt 2; VInt 3] [] "{}"
                  (mkMethod server0 "demo.add") (VStr "<html>")
                  (mkMachine proxy_owning []) eq_refl eq_refl eq_refl eq_refl)
               _ eq_refl).
Defined.


(** [proxy] called on a fresh connection, before any attribute lookup. *)
Lemma proxy_unbound_witness :
  proxy (env_reply (VStr "OK")) (const_dumps "{}") (table_loads replies) [] []
        (mkMachine (set_server (Some server0) proxy0) [])
  = (Raise (TypeError "'NoneType' object is not callable"),
     mkMachine (set_server (Some server0) proxy0)
       [EvRemoteShutdown server0 (Ret VNone)]).
Proof.
  exact (proj1 (proxy_unbound (env_reply (VStr "OK")) (const_dumps "{}")
                  (table_loads replies) [] [] "{}"
                  (mkMachine (set_server (Some server0) proxy0) [])
                  eq_refl eq_refl)).
Defined.



End ProxyMore.

(* ================================================================== *)
(** ** More about the artist: collections, points, lines, labels *)
(* ================================================================== *)

Module ArtistMore.
Import Py Artist.
Local Open Scope py_scope.

(** *** Dictionaries whose keys are all different *)

Lemma dict_get_entry {A : Type} (d : list (key * A)) (k : key) (v : A) :
  NoDup (map fst d) -> In (k, v) d -> dict_get d k = Some v.
Proof.
  induction d as [|[k' v'] d IH]; intros Hnd Hin; [contradiction|].
  cbn [map fst] in Hnd. inversion Hnd as [|? ? Hnotin Hnd']; subst.
  cbn [dict_get]. destruct Hin as [[= -> ->] | Hin].
  - now rewrite ArtistFacts.key_eqb_refl.
  - destruct (key_eqb k' k) eqn:E.
    + apply ArtistFacts.key_eqb_eq in E. subst k'.
      exfalso. apply Hnotin. apply in_map_iff. exists (k, v). auto.
    + now apply IH.
Qed.

Lemma distinct_keys_of_NoDup (ks : list key) :
  NoDup ks -> Json.distinct_keys ks = true.
Proof.
  induction 1 as [|k ks Hk _ IH]; [reflexivity|].
  cbn [Json.distinct_keys]. rewrite IH, andb_true_r.
  apply negb_true_iff.
  destruct (existsb (key_eqb k) ks) eqn:E; [|reflexivity].
  apply existsb_exists in E. destruct E as (k' & Hin & Heq).
  apply ArtistFacts.key_eqb_eq in Heq. subst k'. contradiction.
Qed.

Lemma dict_of_pairs_NoDup {A : Type} (l : list (key * A)) :
  NoDup (map fst l) -> dict_of_pairs l = l.
Proof.
  intro H. apply JsonFacts.dict_of_pairs_distinct.
  now apply distinct_keys_of_NoDup.
Qed.

Lemma enumerate_from_keys {A : Type} (start : nat) (l : list A) :
  map snd (enumerate_from start l) = l.
Proof.
  revert start. induction l as [|x l IH]; intro start; [reflexivity|].
  cbn. now rewrite IH.
Qed.

(** The same for dictionaries keyed by edges. *)

Lemma edge_eqb_refl (e : edge) : edge_eqb e e = true.
Proof. unfold edge_eqb. now rewrite !ArtistFacts.key_eqb_refl. Qed.

Lemma edge_eqb_eq (a b : edge) : edge_eqb a b = true -> a = b.
Proof.
  destruct a as [a1 a2], b as [b1 b2]. unfold edge_eqb. cbn [fst snd].
  intro H. apply andb_true_iff in H. destruct H as [H1 H2].
  apply ArtistFacts.key_eqb_eq in H1. apply ArtistFacts.key_eqb_eq in H2.
  now subst.
Qed.

Lemma edge_lookup_entry {A : Type} (d : list (edge * A)) (e : edge) (v : A) :
  NoDup (map fst d) -> In (e, v) d -> edge_lookup d e = Some v.
Proof.
  induction d as [|[e' v'] d IH]; intros Hnd Hin; [contradiction|].
  cbn [map fst] in Hnd. inversion Hnd as [|? ? Hnotin Hnd']; subst.
  cbn [edge_lookup]. destruct Hin as [[= -> ->] | Hin].
  - now rewrite edge_eqb_refl.
  - destruct (edge_eqb e' e) eqn:E.
    + apply edge_eqb_eq in E. subst e'.
      exfalso. apply Hnotin. apply in_map_iff. exists (e, v). auto.
    + now apply IH.
Qed.

Lemma edge_set_fresh {A : Type} (d : list (edge * A)) (e : edge) (v : A) :
  ~ In e (map fst d) -> edge_set d e v = (d ++ [(e, v)])%list.
Proof.
  induction d as [|[e' v'] d IH]; intro Hn; [reflexivity|].
  cbn [edge_set List.app]. destruct (edge_eqb e' e) eqn:E.
  - apply edge_eqb_eq in E. subst e'. exfalso. apply Hn. now left.
  - rewrite IH; [reflexivity|]. intro Hin. apply Hn. now right.
Qed.

Lemma edge_fold_NoDup {A : Type} (l acc : list (edge * A)) :
  NoDup (map fst (acc ++ l)%list) ->
  fold_left (fun d ev => edge_set d (fst ev) (snd ev)) l acc = (acc ++ l)%list.
Proof.
  revert acc. induction l as [|[e v] l IH]; intros acc Hnd.
  - cbn [fold_left]. now rewrite app_nil_r.
  - cbn [fold_left fst snd].
    assert (Hfresh : ~ In e (map fst acc)).
    { rewrite map_app in Hnd. cbn [map fst] in Hnd.
      apply NoDup_remove_2 in Hnd. intro Hin. apply Hnd.
      apply in_or_app. now left. }
    rewrite (edge_set_fresh acc e v Hfresh).
    rewrite IH; rewrite <- app_assoc; [reflexivity|exact Hnd].
Qed.

Lemma edge_dict_of_pairs_NoDup {A : Type} (l : list (edge * A)) :
  NoDup (map fst l) -> edge_dict_of_pairs l = l.
Proof. intro H. unfold edge_dict_of_pairs. now rewrite edge_fold_NoDup. Qed.

Section Host.

Variables point color colorspec bobject Collection world base : Type.
Variable create_collection : string -> Collection -> world -> outcome Collection * world.
Variable draw_points :
  list (point_spec point color) -> Collection -> world -> outcome (list bobject) * world.
Variable draw_lines :
  list (line_spec point color) -> Collection -> world -> outcome (list bobject) * world.
Variable draw_texts :
  list (text_spec point color) -> Collection -> world -> outcome (list bobject) * world.
Variable colordict : option colorspec -> list key -> color -> outcome (list (key * color)).
Variable read_nodes :
  Artist point color Collection base
  -> outcome (option (list key)) * Artist point color Collection base.
Variable read_edges :
  Artist point color Collection base
  -> outcome (option (list edge)) * Artist point color Collection base.
Variable assign_node_color assign_edge_color :
  option colorspec -> Artist point color Collection base
  -> outcome unit * Artist point color Collection base.
Variable read_node_color :
  Artist point color Collection base
  -> outcome (option (list (key * color))) * Artist point color Collection base.
Variable read_edge_color :
  Artist point color Collection base
  -> outcome (option (list (edge * color))) * Artist point color Collection base.

(** *** Loops that leave the state alone *)

Lemma for_append_pure {A B : Type}
  (body : A -> M point color Collection world base B) (f : A -> B)
  (xs : list A) (m : machine point color Collection world base) :
  (forall x, In x xs -> body x m = (Ret (f x), m)) ->
  for_append body xs m = (Ret (map f xs), m).
Proof.
  induction xs as [|x xs IH]; intro H; [reflexivity|].
  cbn [for_append map]. unfold bind at 1. rewrite (H x (or_introl eq_refl)).
  unfold bind at 1. rewrite IH by (intros y Hy; apply H; now right).
  reflexivity.
Qed.

Lemma for_append_raises {A B : Type}
  (body : A -> M point color Collection world base B)
  (before : list A) (x : A) (after : list A) (e : exn)
  (m m' : machine point color Collection world base) :
  (forall y, In y before -> exists b, body y m = (Ret b, m)) ->
  body x m = (Raise e, m') ->
  for_append body (before ++ x :: after) m = (Raise e, m').
Proof.
  intros Hbefore Hx.
  induction before as [|y before IH].
  - cbn [List.app for_append]. unfold bind at 1. now rewrite Hx.
  - cbn [List.app for_append]. unfold bind at 1.
    destruct (Hbefore y (or_introl eq_refl)) as [b Hb]. rewrite Hb.
    unfold bind at 1. rewrite IH by (intros z Hz; apply Hbefore; now right).
    reflexivity.
Qed.

(** One step of a method body, with what is known about the state. *)
Ltac step known :=
  progress (unfold bind, xyz_of, get_self, accessor, lift, ret, raise;
            cbn [self scene]; known).

(** *** The sub-collections *)

(** X11.  Each of the four sub-collections is created at most once: asking
    for it a second time gives the same collection and the same state as
    asking once, whatever the host does (also when creating it fails). *)
Theorem collections_created_once (m : machine point color Collection world base) :
  (nodecollection create_collection ;;;
   nodecollection create_collection) m = nodecollection create_collection m /\
  (edgecollection create_collection ;;;
   edgecollection create_collection) m = edgecollection create_collection m /\
  (nodelabelcollection create_collection ;;;
   nodelabelcollection create_collection) m = nodelabelcollection create_collection m /\
  (edgelabelcollection create_collection ;;;
   edgelabelcollection create_collection) m = edgelabelcollection create_collection m.
Proof.
  destruct m as [[n nm xyz dn de coll nc ec nlc elc sn se inh] w].
  repeat split.
  - unfold nodecollection, bind, get_self, host, modify, ret. cbn.
    destruct nc; cbn; [reflexivity|].
    destruct (create_collection "Nodes" coll w) as [[c|e] w']; reflexivity.
  - unfold edgecollection, bind, get_self, host, modify, ret. cbn.
    destruct ec; cbn; [reflexivity|].
    destruct (create_collection "Edges" coll w) as [[c|e] w']; reflexivity.
  - unfold nodelabelcollection, bind, get_self, host, modify, ret. cbn.
    destruct nlc; cbn; [reflexivity|].
    destruct (create_collection "NodeLabels" coll w) as [[c|e] w']; reflexivity.
  - unfold edgelabelcollection, bind, get_self, host, modify, ret. cbn.
    destruct elc; cbn; [reflexivity|].
    destruct (create_collection "EdgeLabels" coll w) as [[c|e] w']; reflexivity.
Qed.

(** *** Points and lines *)

(** X12.  [draw_nodes] hands [draw_points] one point per selected node, in
    selection order: at the node's position, named
    [<network>.node.<node>], coloured by the node colours (the default
    colour for a node they do not mention), with radius 0.05, into the
    nodes collection.  The selection is the argument, or the stored one
    when the argument is absent or empty.  (The accessors are taken at a
    state they leave as it is.) *)
Theorem draw_nodes_points (m : machine point color Collection world base)
  (nodes : option (list key)) (c : option colorspec)
  (a1 a2 : Artist point color Collection base) (sel : list key)
  (d : list (key * color)) (pos : key -> point) :
  assign_node_color c (self m) = (Ret tt, a1) ->
  selection_or nodes (accessor read_nodes)
               (mkMachine point color Collection world base a1 (scene m))
  = (Ret (Some sel), mkMachine point color Collection world base a2 (scene m)) ->
  read_node_color a2 = (Ret (Some d), a2) ->
  (forall n, In n sel -> dict_get (node_xyz a2) n = Some (pos n)) ->
  draw_nodes create_collection draw_points read_nodes assign_node_color
             read_node_color nodes c m
  = (coll <- nodecollection create_collection ;;
     host (draw_points
             (map (fun n =>
                     mkPoint (pos n)
                             (network_name a2 ++ ".node." ++ str_of_key n)
                             (match dict_get d n with
                              | Some x => x
                              | None => default_nodecolor a2
                              end)
                             5%Z)
                  sel)
             coll))
      (mkMachine point color Collection world base a2 (scene m)).
Proof.
  intros Hassign Hsel Hcolor Hpos.
  unfold draw_nodes. unfold bind at 1. unfold accessor at 1. rewrite Hassign.
  unfold bind at 1. rewrite Hsel.
  unfold bind at 1. cbn [iterable]. unfold ret at 1.
  unfold bind at 1.
  rewrite (for_append_pure _
             (fun n =>
                mkPoint (pos n) (network_name a2 ++ ".node." ++ str_of_key n)
                        (match dict_get d n with
                         | Some x => x
                         | None => default_nodecolor a2
                         end) 5%Z)).
  - reflexivity.
  - intros n Hn.
    repeat step ltac:(try rewrite (Hpos n Hn); try rewrite Hcolor).
    reflexivity.
Qed.

(** X13.  A selected node without a position: [draw_nodes] raises
    [KeyError] for the first such node; nothing is drawn and no collection
    is created. *)
Theorem draw_nodes_missing_position (m : machine point color Collection world base)
  (nodes : option (list key)) (c : option colorspec)
  (a1 a2 : Artist point color Collection base)
  (before : list key) (n : key) (after : list key)
  (d : list (key * color)) :
  assign_node_color c (self m) = (Ret tt, a1) ->
  selection_or nodes (accessor read_nodes)
               (mkMachine point color Collection world base a1 (scene m))
  = (Ret (Some (before ++ n :: after)%list),
     mkMachine point color Collection world base a2 (scene m)) ->
  read_node_color a2 = (Ret (Some d), a2) ->
  (forall y, In y before -> dict_get (node_xyz a2) y <> None) ->
  dict_get (node_xyz a2) n = None ->
  draw_nodes create_collection draw_points read_nodes assign_node_color
             read_node_color nodes c m
  = (Raise (KeyError n), mkMachine point color Collection world base a2 (scene m)).
Proof.
  intros Hassign Hsel Hcolor Hbefore Hn.
  unfold draw_nodes. unfold bind at 1. unfold accessor at 1. rewrite Hassign.
  unfold bind at 1. rewrite Hsel.
  unfold bind at 1. cbn [iterable]. unfold ret at 1.
  unfold bind at 1.
  rewrite (for_append_raises _ before n after (KeyError n)
             (mkMachine point color Collection world base a2 (scene m))
             (mkMachine point color Collection world base a2 (scene m))).
  - reflexivity.
  - intros y Hy. specialize (Hbefore y Hy).
    destruct (dict_get (node_xyz a2) y) as [p|] eqn:Hy'; [|contradiction].
    eexists.
    repeat step ltac:(try rewrite Hy'; try rewrite Hcolor).
    reflexivity.
  - repeat step ltac:(try rewrite Hn). reflexivity.
Qed.

(** X14.  [draw_edges] hands [draw_lines] one line per selected edge, in
    selection order: between the positions of its two nodes, named
    [<network>.edge.<u>-<v>], coloured by the edge colours (the default
    colour for an edge they do not mention), with width 0.02, into the
    edges collection. *)
Theorem draw_edges_lines (m : machine point color Collection world base)
  (edges : option (list edge)) (c : option colorspec)
  (a1 a2 : Artist point color Collection base) (sel : list edge)
  (d : list (edge * color)) (pos : key -> point) :
  assign_edge_color c (self m) = (Ret tt, a1) ->
  selection_or edges (accessor read_edges)
               (mkMachine point color Collection world base a1 (scene m))
  = (Ret (Some sel), mkMachine point color Collection world base a2 (scene m)) ->
  read_edge_color a2 = (Ret (Some d), a2) ->
  (forall e, In e sel ->
     dict_get (node_xyz a2) (fst e) = Some (pos (fst e)) /\
     dict_get (node_xyz a2) (snd e) = Some (pos (snd e))) ->
  draw_edges create_collection draw_lines read_edges assign_edge_color
             read_edge_color edges c m
  = (coll <- edgecollection create_collection ;;
     host (draw_lines
             (map (fun e : edge =>
                     mkLine (pos (fst e)) (pos (snd e))
                            (edge_get d e (default_edgecolor a2))
                            (network_name a2 ++ ".edge." ++ str_of_key (fst e)
                               ++ "-" ++ str_of_key (snd e))
                            2%Z)
                  sel)
             coll))
      (mkMachine point color Collection world base a2 (scene m)).
Proof.
  intros Hassign Hsel Hcolor Hpos.
  unfold draw_edges. unfold bind at 1. unfold accessor at 1. rewrite Hassign.
  unfold bind at 1. rewrite Hsel.
  unfold bind at 1. cbn [iterable]. unfold ret at 1.
  unfold bind at 1.
  rewrite (for_append_pure _
             (fun e : edge =>
                mkLine (pos (fst e)) (pos (snd e))
                       (edge_get d e (default_edgecolor a2))
                       (network_name a2 ++ ".edge." ++ str_of_key (fst e)
                          ++ "-" ++ str_of_key (snd e))
                       2%Z)).
  - reflexivity.
  - intros e He. destruct (Hpos e He) as [H0 H1].
    repeat step ltac:(try rewrite H0; try rewrite H1; try rewrite Hcolor).
    reflexivity.
Qed.

(** *** Node labels *)

(** [draw_nodelabels] once [node_text] is known. *)
Lemma draw_nodelabels_with (text : value) (c : option colorspec)
  (m m1 : machine point color Collection world base)
  (nt : list (key * value)) (cd : list (key * color))
  (pos : key -> point) (col : key -> color) :
  node_text_of read_nodes text m = (Ret nt, m1) ->
  NoDup (map fst nt) ->
  colordict c (map fst nt) (default_nodecolor (self m1)) = Ret cd ->
  (forall k, In k (map fst nt) -> dict_get (node_xyz (self m1)) k = Some (pos k)) ->
  (forall k, In k (map fst nt) -> dict_get cd k = Some (col k)) ->
  draw_nodelabels create_collection draw_texts colordict read_nodes text c m
  = (coll <- nodelabelcollection create_collection ;;
     host (draw_texts (map (label_of (self m1) pos col) nt) coll)) m1.
Proof.
  intros Htext Hnd Hcd Hpos Hcol.
  unfold draw_nodelabels. unfold bind at 1. rewrite Htext.
  unfold bind at 1, get_self at 1. unfold bind at 1, lift, dict_keys.
  rewrite Hcd. unfold bind at 1.
  rewrite (for_append_pure _
             (fun k =>
                mkText (pos k)
                       (network_name (self m1) ++ ".nodelabel." ++ str_of_key k)
                       (match dict_get nt k with Some t => t | None => VNone end)
                       (col k))).
  - rewrite map_map.
    rewrite (map_ext_in _ (label_of (self m1) pos col)); [reflexivity|].
    intros [k t] Hin. unfold label_of. cbn [fst snd].
    now rewrite (dict_get_entry nt k t Hnd Hin).
  - intros k Hk.
    assert (Hsome : exists t, dict_get nt k = Some t).
    { apply in_map_iff in Hk. destruct Hk as ([k' t] & <- & Hin).
      exists t. now apply dict_get_entry. }
    destruct Hsome as [t Ht].
    repeat step ltac:(try rewrite (Hpos k Hk); try rewrite Ht;
                      try rewrite (Hcol k Hk)).
    reflexivity.
Qed.

(** X15.  [text="index"] on any selection without repetition: the labels
    handed to [draw_texts] are, in selection order, one per node, the
    [i]-th carrying the text [str(i)] under the name of the [i]-th node. *)
Theorem draw_nodelabels_index (c : option colorspec)
  (m : machine point color Collection world base)
  (sel : list key) (cd : list (key * color))
  (pos : key -> point) (col : key -> color) :
  _nodes (self m) = Some sel ->
  NoDup sel ->
  colordict c sel (default_nodecolor (self m)) = Ret cd ->
  (forall k, In k sel -> dict_get (node_xyz (self m)) k = Some (pos k)) ->
  (forall k, In k sel -> dict_get cd k = Some (col k)) ->
  draw_nodelabels create_collection draw_texts colordict read_nodes
                  (VStr "index") c m
  = (coll <- nodelabelcollection create_collection ;;
     host (draw_texts
             (map (fun iv : nat * key =>
                     mkText (pos (snd iv))
                            (network_name (self m) ++ ".nodelabel."
                               ++ str_of_key (snd iv))
                            (VStr (str_of_Z (Z.of_nat (fst iv))))
                            (col (snd iv)))
                  (enumerate sel))
             coll)) m.
Proof.
  intros Hsel Hnd Hcd Hpos Hcol.
  set (nt := map (fun iv : nat * key =>
                    (snd iv, VStr (str_of_Z (Z.of_nat (fst iv)))))
                 (enumerate sel)).
  assert (Hkeys : map fst nt = sel).
  { unfold nt. rewrite map_map. cbn [fst]. apply enumerate_from_keys. }
  assert (Htext : node_text_of read_nodes (VStr "index") m = (Ret nt, m)).
  { unfold node_text_of. cbn [truthy equals_str negb orb String.eqb Ascii.eqb Bool.eqb].
    unfold bind, get_self, iterable. rewrite Hsel. unfold ret.
    rewrite dict_of_pairs_NoDup; [reflexivity|].
    fold nt. now rewrite Hkeys. }
  rewrite (draw_nodelabels_with (VStr "index") c m m nt cd pos col Htext);
    rewrite ?Hkeys; try assumption.
  unfold nt. rewrite map_map. reflexivity.
Qed.

(** X16.  Without a text, with a falsy one or with ["key"], on a selection
    without repetition: one label per selected node, in selection order,
    carrying [str(node)]. *)
Theorem draw_nodelabels_key (text : value) (c : option colorspec)
  (m : machine point color Collection world base)
  (a1 : Artist point color Collection base)
  (sel : list key) (cd : list (key * color))
  (pos : key -> point) (col : key -> color) :
  truthy text = false \/ text = VStr "key" ->
  read_nodes (self m) = (Ret (Some sel), a1) ->
  NoDup sel ->
  colordict c sel (default_nodecolor a1) = Ret cd ->
  (forall k, In k sel -> dict_get (node_xyz a1) k = Some (pos k)) ->
  (forall k, In k sel -> dict_get cd k = Some (col k)) ->
  draw_nodelabels create_collection draw_texts colordict read_nodes text c m
  = (coll <- nodelabelcollection create_collection ;;
     host (draw_texts
             (map (fun n =>
                     mkText (pos n)
                            (network_name a1 ++ ".nodelabel." ++ str_of_key n)
                            (VStr (str_of_key n)) (col n))
                  sel)
             coll))
      (mkMachine point color Collection world base a1 (scene m)).
Proof.
  intros Hmode Hread Hnd Hcd Hpos Hcol.
  set (nt := map (fun n => (n, VStr (str_of_key n))) sel).
  assert (Hkeys : map fst nt = sel).
  { unfold nt. rewrite map_map. cbn [fst]. apply map_id. }
  assert (Htext : node_text_of read_nodes text m
                  = (Ret nt, mkMachine point color Collection world base a1 (scene m))).
  { unfold node_text_of.
    assert (Hcond : negb (truthy text) || equals_str text "key" = true).
    { destruct Hmode as [-> | ->]; reflexivity. }
    rewrite Hcond. unfold bind, accessor, iterable. rewrite Hread. unfold ret.
    rewrite dict_of_pairs_NoDup; [reflexivity|].
    fold nt. now rewrite Hkeys. }
  rewrite (draw_nodelabels_with text c m _ nt cd pos col Htext);
    cbn [self]; rewrite ?Hkeys; try assumption.
  unfold nt. rewrite map_map. reflexivity.
Qed.

(** X17.  With a non-empty dict as text the selection plays no part: the
    labels are the entries of the dict, in its order, each with the text
    the dict gives; the stored selection is not even read. *)
Theorem draw_nodelabels_dict (d : list (key * value)) (c : option colorspec)
  (m : machine point color Collection world base)
  (cd : list (key * color)) (pos : key -> point) (col : key -> color) :
  d <> [] ->
  NoDup (map fst d) ->
  colordict c (map fst d) (default_nodecolor (self m)) = Ret cd ->
  (forall k, In k (map fst d) -> dict_get (node_xyz (self m)) k = Some (pos k)) ->
  (forall k, In k (map fst d) -> dict_get cd k = Some (col k)) ->
  draw_nodelabels create_collection draw_texts colordict read_nodes (VDict d) c m
  = (coll <- nodelabelcollection create_collection ;;
     host (draw_texts
             (map (fun kv : key * value =>
                     mkText (pos (fst kv))
                            (network_name (self m) ++ ".nodelabel."
                               ++ str_of_key (fst kv))
                            (snd kv) (col (fst kv)))
                  d)
             coll)) m.
Proof.
  intros Hne Hnd Hcd Hpos Hcol.
  assert (Htext : node_text_of read_nodes (VDict d) m = (Ret d, m)).
  { unfold node_text_of. destruct d; [contradiction|reflexivity]. }
  exact (draw_nodelabels_with (VDict d) c m m d cd pos col Htext Hnd Hcd Hpos Hcol).
Qed.

(** X18.  [text="index"] reads the attribute [_nodes] itself, not the
    [nodes] accessor the other modes go through: while [_nodes] is [None],
    [draw_nodelabels] raises [TypeError]; nothing is drawn, no collection
    is created and the artist is unchanged. *)
Theorem draw_nodelabels_index_unresolved (c : option colorspec)
  (m : machine point color Collection world base) :
  _nodes (self m) = None ->
  draw_nodelabels create_collection draw_texts colordict read_nodes
                  (VStr "index") c m
  = (Raise (TypeError "'NoneType' object is not iterable"), m).
Proof.
  intro Hnone. unfold draw_nodelabels, node_text_of.
  cbn [truthy equals_str negb orb String.eqb Ascii.eqb Bool.eqb].
  unfold bind, get_self, iterable. rewrite Hnone. reflexivity.
Qed.

(** *** Edge labels *)

Variable centroid_points : list point -> point.
Variable colordict_edges :
  option colorspec -> list edge -> color -> outcome (list (edge * color)).
Variable draw_texts_colored :
  list (edge_label point) -> Collection -> list (edge * color) -> world
  -> outcome (list bobject) * world.

(** [draw_edgelabels] once [edge_text] is known. *)
Lemma draw_edgelabels_with (text : edge_text) (c : option colorspec)
  (m m1 : machine point color Collection world base)
  (et : list (edge * value)) (cd : list (edge * color)) (pos : key -> point) :
  edge_text_of read_edges text m = (Ret et, m1) ->
  NoDup (map fst et) ->
  colordict_edges c (map fst et) (default_edgecolor (self m1)) = Ret cd ->
  (forall e, In e (map fst et) ->
     dict_get (node_xyz (self m1)) (fst e) = Some (pos (fst e)) /\
     dict_get (node_xyz (self m1)) (snd e) = Some (pos (snd e))) ->
  draw_edgelabels create_collection read_edges centroid_points colordict_edges
                  draw_texts_colored text c m
  = (coll <- edgelabelcollection create_collection ;;
     host (draw_texts_colored
             (map (fun ev : edge * value =>
                     mkEdgeLabel
                       (centroid_points [pos (fst (fst ev)); pos (snd (fst ev))])
                       (network_name (self m1) ++ ".edgelabel."
                          ++ str_of_key (fst (fst ev)) ++ "-"
                          ++ str_of_key (snd (fst ev)))
                       (snd ev))
                  et)
             coll cd)) m1.
Proof.
  intros Htext Hnd Hcd Hpos.
  unfold draw_edgelabels. unfold bind at 1. rewrite Htext.
  unfold bind at 1, get_self at 1. unfold bind at 1, lift.
  rewrite Hcd. unfold bind at 1.
  rewrite (for_append_pure _
             (fun e : edge =>
                mkEdgeLabel
                  (centroid_points [pos (fst e); pos (snd e)])
                  (network_name (self m1) ++ ".edgelabel."
                     ++ str_of_key (fst e) ++ "-" ++ str_of_key (snd e))
                  (match edge_lookup et e with Some t => t | None => VNone end))).
  - rewrite map_map.
    rewrite (map_ext_in _
               (fun ev : edge * value =>
                  mkEdgeLabel
                    (centroid_points [pos (fst (fst ev)); pos (snd (fst ev))])
                    (network_name (self m1) ++ ".edgelabel."
                       ++ str_of_key (fst (fst ev)) ++ "-"
                       ++ str_of_key (snd (fst ev)))
                    (snd ev))); [reflexivity|].
    intros [e t] Hin. cbn [fst snd].
    now rewrite (edge_lookup_entry et e t Hnd Hin).
  - intros e He.
    assert (Hsome : exists t, edge_lookup et e = Some t).
    { apply in_map_iff in He. destruct He as ([e' t] & <- & Hin).
      exists t. now apply edge_lookup_entry. }
    destruct Hsome as [t Ht]. destruct (Hpos e He) as [H0 H1].
    repeat step ltac:(try rewrite H0; try rewrite H1; try rewrite Ht).
    reflexivity.
Qed.

(** X19.  Without a text, [draw_edgelabels] labels every edge of the
    selection (taken without repetition) with ["u-v"], at the centroid of
    its two end points, under the name [<network>.edgelabel.<u>-<v>]; the
    colours do not go into the labels but to [draw_texts] as one dict. *)
Theorem draw_edgelabels_default (c : option colorspec)
  (m : machine point color Collection world base)
  (a1 : Artist point color Collection base)
  (sel : list edge) (cd : list (edge * color)) (pos : key -> point) :
  read_edges (self m) = (Ret (Some sel), a1) ->
  NoDup sel ->
  colordict_edges c sel (default_edgecolor a1) = Ret cd ->
  (forall e, In e sel ->
     dict_get (node_xyz a1) (fst e) = Some (pos (fst e)) /\
     dict_get (node_xyz a1) (snd e) = Some (pos (snd e))) ->
  draw_edgelabels create_collection read_edges centroid_points colordict_edges
                  draw_texts_colored EdgeTextNone c m
  = (coll <- edgelabelcollection create_collection ;;
     host (draw_texts_colored
             (map (fun e : edge =>
                     mkEdgeLabel
                       (centroid_points [pos (fst e); pos (snd e)])
                       (network_name a1 ++ ".edgelabel."
                          ++ str_of_key (fst e) ++ "-" ++ str_of_key (snd e))
                       (VStr (str_of_key (fst e) ++ "-" ++ str_of_key (snd e))))
                  sel)
             coll cd))
      (mkMachine point color Collection world base a1 (scene m)).
Proof.
  intros Hread Hnd Hcd Hpos.
  set (et := map (fun e : edge =>
                    (e, VStr (str_of_key (fst e) ++ "-" ++ str_of_key (snd e))))
                 sel).
  assert (Hkeys : map fst et = sel).
  { unfold et. rewrite map_map. cbn [fst]. apply map_id. }
  assert (Htext : edge_text_of read_edges EdgeTextNone m
                  = (Ret et, mkMachine point color Collection world base a1 (scene m))).
  { unfold edge_text_of, bind, accessor, iterable. rewrite Hread. unfold ret.
    rewrite edge_dict_of_pairs_NoDup; [reflexivity|].
    fold et. now rewrite Hkeys. }
  rewrite (draw_edgelabels_with EdgeTextNone c m _ et cd pos Htext);
    cbn [self]; rewrite ?Hkeys; try assumption.
  unfold et. rewrite map_map. reflexivity.
Qed.

(** X20.  With a dict as text the edges of the network play no part: the
    labels are the entries of the dict, in its order.  This holds for the
    empty dict as well, which draws no label at all (where
    [draw_nodelabels] takes an empty dict for an absent text). *)
Theorem draw_edgelabels_dict (d : list (edge * value)) (c : option colorspec)
  (m : machine point color Collection world base)
  (cd : list (edge * color)) (pos : key -> point) :
  NoDup (map fst d) ->
  colordict_edges c (map fst d) (default_edgecolor (self m)) = Ret cd ->
  (forall e, In e (map fst d) ->
     dict_get (node_xyz (self m)) (fst e) = Some (pos (fst e)) /\
     dict_get (node_xyz (self m)) (snd e) = Some (pos (snd e))) ->
  draw_edgelabels create_collection read_edges centroid_points colordict_edges
                  draw_texts_colored (EdgeTextDict d) c m
  = (coll <- edgelabelcollection create_collection ;;
     host (draw_texts_colored
             (map (fun ev : edge * value =>
                     mkEdgeLabel
                       (centroid_points [pos (fst (fst ev)); pos (snd (fst ev))])
                       (network_name (self m) ++ ".edgelabel."
                          ++ str_of_key (fst (fst ev)) ++ "-"
                          ++ str_of_key (snd (fst ev)))
                       (snd ev))
                  d)
             coll cd)) m.
Proof.
  intros Hnd Hcd Hpos.
  exact (draw_edgelabels_with (EdgeTextDict d) c m m d cd pos eq_refl Hnd Hcd Hpos).
Qed.

End Host.

(** *** The theorems on the demo network *)

Ltac distinct := repeat constructor; simpl; intuition discriminate.

(** X12: two of the three nodes are asked for. *)
Lemma draw_nodes_points_witness :
  demo_draw_nodes (Some [KInt 7; KInt 9]) None demo_machine
  = (Ret [("net.node.7", VNone); ("net.node.9", VNone)],
     mkMachine xyz rgb string (list string) (list (key * rgb))
       (set_nodecollection xyz rgb string (list (key * rgb)) "net/Nodes" artist789)
       ["net/Nodes"; "net.node.7"; "net.node.9"]).
Proof.
  unfold demo_draw_nodes.
  rewrite (draw_nodes_points xyz rgb rgb drawn string (list string) (list (key * rgb))
             demo_create_collection demo_draw_points demo_read_nodes
             demo_assign_color demo_read_node_color
             demo_machine (Some [KInt 7; KInt 9]) None artist789 artist789
             [KInt 7; KInt 9] [] demo_pos eq_refl eq_refl eq_refl
             ltac:(intros n [<- | [<- | []]]; reflexivity)).
  reflexivity.
Defined.

(** X13: node 5 is not in the network. *)
Lemma draw_nodes_missing_position_witness :
  demo_draw_nodes (Some [KInt 7; KInt 5; KInt 9]) None demo_machine
  = (Raise (KeyError (KInt 5)), demo_machine).
Proof.
  exact (draw_nodes_missing_position
           xyz rgb rgb drawn string (list string) (list (key * rgb))
           demo_create_collection demo_draw_points demo_read_nodes
           demo_assign_color demo_read_node_color
           demo_machine (Some [KInt 7; KInt 5; KInt 9]) None artist789 artist789
           [KInt 7] (KInt 5) [KInt 9] [] eq_refl eq_refl eq_refl
           ltac:(intros y [<- | []]; discriminate) eq_refl).
Defined.

(** X14: no edges are asked for, so both edges of the network are drawn. *)
Lemma draw_edges_lines_witness :
  demo_draw_edges None None demo_machine
  = (Ret [("net.edge.7-8", VNone); ("net.edge.8-9", VNone)],
     mkMachine xyz rgb string (list string) (list (key * rgb))
       (set_edgecollection xyz rgb string (list (key * rgb)) "net/Edges" artist789)
       ["net/Edges"; "net.edge.7-8"; "net.edge.8-9"]).
Proof.
  unfold demo_draw_edges.
  rewrite (draw_edges_lines xyz rgb rgb drawn string (list string) (list (key * rgb))
             demo_create_collection demo_draw_lines demo_read_edges
             demo_assign_color demo_read_edge_color
             demo_machine None None artist789 artist789
             [(KInt 7, KInt 8); (KInt 8, KInt 9)]
             [((KInt 7, KInt 8), (5, 5, 5)%Z)] demo_pos eq_refl eq_refl eq_refl
             ltac:(intros e [<- | [<- | []]]; split; reflexivity)).
  reflexivity.
Defined.

(** X15 on the three selected nodes. *)
Lemma draw_nodelabels_index_witness :
  fst (demo_draw_nodelabels (VStr "index") (Some (2, 2, 2)%Z) demo_machine)
  = Ret [("net.nodelabel.7", VStr "0");
         ("net.nodelabel.8", VStr "1");
         ("net.nodelabel.9", VStr "2")].
Proof.
  unfold demo_draw_nodelabels.
  rewrite (draw_nodelabels_index
             xyz rgb rgb drawn string (list string) (list (key * rgb))
             demo_create_collection demo_draw_texts demo_colordict demo_read_nodes
             (Some (2, 2, 2)%Z) demo_machine [KInt 7; KInt 8; KInt 9]
             [(KInt 7, (2, 2, 2)%Z); (KInt 8, (2, 2, 2)%Z); (KInt 9, (2, 2, 2)%Z)]
             demo_pos (fun _ => (2, 2, 2)%Z)
             eq_refl ltac:(distinct) eq_refl
             ltac:(intros k [<- | [<- | [<- | []]]]; reflexivity)
             ltac:(intros k [<- | [<- | [<- | []]]]; reflexivity)).
  reflexivity.
Defined.

(** X16 with the integer 0 as text. *)
Lemma draw_nodelabels_key_witness :
  fst (demo_draw_nodelabels (VInt 0) None demo_machine)
  = Ret [("net.nodelabel.7", VStr "7");
         ("net.nodelabel.8", VStr "8");
         ("net.nodelabel.9", VStr "9")].
Proof.
  unfold demo_draw_nodelabels.
  rewrite (draw_nodelabels_key
             xyz rgb rgb drawn string (list string) (list (key * rgb))
             demo_create_collection demo_draw_texts demo_colordict demo_read_nodes
             (VInt 0) None demo_machine artist789 [KInt 7; KInt 8; KInt 9]
             [(KInt 7, (1, 1, 1)%Z); (KInt 8, (1, 1, 1)%Z); (KInt 9, (1, 1, 1)%Z)]
             demo_pos (fun _ => (1, 1, 1)%Z)
             (or_introl eq_refl) eq_refl ltac:(distinct) eq_refl
             ltac:(intros k [<- | [<- | [<- | []]]]; reflexivity)
             ltac:(intros k [<- | [<- | [<- | []]]]; reflexivity)).
  reflexivity.
Defined.

(** X17: a dict that names only node 9, while 7, 8 and 9 are selected. *)
Lemma draw_nodelabels_dict_witness :
  fst (demo_draw_nodelabels (VDict [(KInt 9, VStr "apex")]) None demo_machine)
  = Ret [("net.nodelabel.9", VStr "apex")].
Proof.
  unfold demo_draw_nodelabels.
  rewrite (draw_nodelabels_dict
             xyz rgb rgb drawn string (list string) (list (key * rgb))
             demo_create_collection demo_draw_texts demo_colordict demo_read_nodes
             [(KInt 9, VStr "apex")] None demo_machine
             [(KInt 9, (1, 1, 1)%Z)] demo_pos (fun _ => (1, 1, 1)%Z)
             ltac:(discriminate) ltac:(distinct) eq_refl
             ltac:(intros k [<- | []]; reflexivity)
             ltac:(intros k [<- | []]; reflexivity)).
  reflexivity.
Defined.

(** X18: the default text labels the three nodes, ["index"] raises. *)
Lemma draw_nodelabels_index_unresolved_witness :
  fst (demo_draw_nodelabels VNone None unselected_machine)
  = Ret [("net.nodelabel.7", VStr "7");
         ("net.nodelabel.8", VStr "8");
         ("net.nodelabel.9", VStr "9")] /\
  demo_draw_nodelabels (VStr "index") None unselected_machine
  = (Raise (TypeError "'NoneType' object is not iterable"), unselected_machine).
Proof.
  split; [reflexivity|].
  exact (draw_nodelabels_index_unresolved
           xyz rgb rgb drawn string (list string) (list (key * rgb))
           demo_create_collection demo_draw_texts demo_colordict demo_read_nodes
           None unselected_machine eq_refl).
Defined.

(** X19 on the two edges of the demo network. *)
Lemma draw_edgelabels_default_witness :
  fst (demo_draw_edgelabels EdgeTextNone None demo_machine)
  = Ret [("net.edgelabel.7-8", VStr "7-8"); ("net.edgelabel.8-9", VStr "8-9")].
Proof.
  unfold demo_draw_edgelabels.
  rewrite (draw_edgelabels_default
             xyz rgb rgb drawn string (list string) (list (key * rgb))
             demo_create_collection demo_read_edges demo_centroid
             demo_colordict_edges demo_draw_texts_colored
             None demo_machine artist789
             [(KInt 7, KInt 8); (KInt 8, KInt 9)]
             [((KInt 7, KInt 8), (0, 0, 0)%Z); ((KInt 8, KInt 9), (0, 0, 0)%Z)]
             demo_pos eq_refl ltac:(distinct) eq_refl
             ltac:(intros e [<- | [<- | []]]; split; reflexivity)).
  reflexivity.
Defined.

(** X20: one entry, and none. *)
Lemma draw_edgelabels_dict_witness :
  fst (demo_draw_edgelabels (EdgeTextDict [((KInt 9, KInt 7), VStr "chord")])
                            None demo_machine)
  = Ret [("net.edgelabel.9-7", VStr "chord")] /\
  fst (demo_draw_edgelabels (EdgeTextDict []) None demo_machine) = Ret [].
Proof.
  unfold demo_draw_edgelabels. split.
  - rewrite (draw_edgelabels_dict
               xyz rgb rgb drawn string (list string) (list (key * rgb))
               demo_create_collection demo_read_edges demo_centroid
               demo_colordict_edges demo_draw_texts_colored
               [((KInt 9, KInt 7), VStr "chord")] None demo_machine
               [((KInt 9, KInt 7), (0, 0, 0)%Z)] demo_pos
               ltac:(distinct) eq_refl
               ltac:(intros e [<- | []]; split; reflexivity)).
    reflexivity.
  - reflexivity.
Defined.

End ArtistMore.
